(** * Faucet: the disbursement engine of [main.go]

    A shallow embedding of [NewFaucet], [SendTokens], [GetBalance] and the
    [/request] handler, together with the parts of the Go standard library
    and of go-ethereum they call ([strconv.Atoi], [big.Int.SetString],
    [time.Since], [Duration.Round], [Duration.String],
    [common.IsHexAddress], [common.HexToAddress], [types.SignTx]).

    Go strings are byte sequences, so they are Rocq [string]s; [int],
    [int64] and [uint64] are [Z] with the wrap-around written out; the
    cooldown table [map[string]time.Time] is a [gmap string Z]. *)

From Stdlib Require Import ZArith String Ascii List Lia Bool.
From stdpp Require Import gmap strings.

Local Open Scope Z_scope.

(** ** Machine integers *)

Definition maxInt64 : Z := 9223372036854775807.
Definition minInt64 : Z := -9223372036854775808.
Definition maxUint64 : Z := 18446744073709551615.

(** Conversion of a mathematical integer to [int64] (two's complement). *)
Definition wrap64 (z : Z) : Z := (z + 2 ^ 63) mod 2 ^ 64 - 2 ^ 63.

(** Conversion to [uint64]. *)
Definition wrapU64 (z : Z) : Z := z mod 2 ^ 64.

Definition byte_of (c : ascii) : Z := Z.of_N (N_of_ascii c).
Definition char_of (b : Z) : ascii := ascii_of_N (Z.to_N b).

(** [s[n:]] for [n <= len(s)]. *)
Fixpoint drop_str (n : nat) (s : string) : string :=
  match n, s with
  | O, _ => s
  | S n', String _ s' => drop_str n' s'
  | S _, EmptyString => EmptyString
  end.

(** [for _, c := range []byte(s)] with an early [return false]. *)
Fixpoint all_bytes (p : ascii -> bool) (s : string) : bool :=
  match s with
  | EmptyString => true
  | String c s' => p c && all_bytes p s'
  end.

Definition in_range (lo hi c : ascii) : bool :=
  (byte_of lo <=? byte_of c) && (byte_of c <=? byte_of hi).

Definition Result (A : Type) : Type := (A + string)%type.
Definition Ok {A : Type} (a : A) : Result A := inl a.
Definition Err {A : Type} (msg : string) : Result A := inr msg.

(** ** go-ethereum [common]: addresses *)

Module common.

Definition AddressLength : nat := 20.

(** [common.Address] is [[20]byte]. *)
Definition Address : Type := list Z.

Definition has0xPrefix (str : string) : bool :=
  match str with
  | String c0 (String c1 _) =>
      Ascii.eqb c0 "0" && (Ascii.eqb c1 "x" || Ascii.eqb c1 "X")
  | _ => false
  end.

Definition isHexCharacter (c : ascii) : bool :=
  in_range "0" "9" c || in_range "a" "f" c || in_range "A" "F" c.

Definition isHex (str : string) : bool :=
  if negb (Nat.even (String.length str)) then false
  else all_bytes isHexCharacter str.

Definition IsHexAddress (s : string) : bool :=
  let s := if has0xPrefix s then drop_str 2 s else s in
  Nat.eqb (String.length s) (2 * AddressLength) && isHex s.

(** [encoding/hex.fromHexChar]. *)
Definition fromHexChar (c : ascii) : option Z :=
  if in_range "0" "9" c then Some (byte_of c - byte_of "0")
  else if in_range "a" "f" c then Some (byte_of c - byte_of "a" + 10)
  else if in_range "A" "F" c then Some (byte_of c - byte_of "A" + 10)
  else None.

(** [Hex2Bytes]: [hex.DecodeString] with its error dropped, which leaves
    the bytes decoded before the first bad or unpaired character. *)
Fixpoint Hex2Bytes (str : string) : list Z :=
  match str with
  | String a (String b rest) =>
      match fromHexChar a, fromHexChar b with
      | Some hi, Some lo => (hi * 16 + lo) :: Hex2Bytes rest
      | _, _ => []
      end
  | _ => []
  end.

Definition FromHex (s : string) : list Z :=
  let s := if has0xPrefix s then drop_str 2 s else s in
  let s := if Nat.odd (String.length s) then String "0" s else s in
  Hex2Bytes s.

(** [BytesToAddress]: the last 20 bytes of [b], left-padded with zeros. *)
Definition BytesToAddress (b : list Z) : Address :=
  let b := skipn (length b - AddressLength) b in
  repeat 0 (AddressLength - length b) ++ b.

Definition HexToAddress (s : string) : Address := BytesToAddress (FromHex s).

End common.

(** ** [strconv]: decimal integers *)

Module strconv.

Inductive NumError : Type := ErrSyntax | ErrRange.

(** [fmtInt]-style digit loop, shared by [Itoa] and [Duration.String]:
    [for v > 0 { w--; buf[w] = byte(v%10) + '0'; v /= 10 }].  A [uint64]
    has at most 20 digits, which bounds the loop. *)
Fixpoint digits_loop (fuel : nat) (v : Z) (acc : string) : string :=
  match fuel with
  | O => acc
  | S fuel' =>
      if v <=? 0 then acc
      else digits_loop fuel' (v / 10) (String (char_of (v mod 10 + 48)) acc)
  end.

Definition fmtUint (v : Z) (acc : string) : string :=
  if v =? 0 then String "0" acc else digits_loop 20 v acc.

(** [Itoa(i)] is [FormatInt(int64(i), 10)]. *)
Definition Itoa (i : Z) : string :=
  if i <? 0 then String "-" (fmtUint (wrapU64 (- i)) EmptyString)
  else fmtUint i EmptyString.

(** The loop of [ParseUint(s, 10, 64)].  With base 10 every byte that is
    not a decimal digit (letters and the underscore included) is a syntax
    error; [cutoff] is [maxUint64/10 + 1] and [maxVal] is [1<<64 - 1]. *)
Fixpoint parseUint_loop (n : Z) (s : string) : Z + NumError :=
  match s with
  | EmptyString => inl n
  | String c s' =>
      if in_range "0" "9" c then
        let d := byte_of c - 48 in
        if maxUint64 / 10 + 1 <=? n then inr ErrRange
        else
          let n := wrapU64 (n * 10) in
          let n1 := wrapU64 (n + d) in
          if (n1 <? n) || (maxUint64 <? n1) then inr ErrRange
          else parseUint_loop n1 s'
      else inr ErrSyntax
  end.

Definition ParseUint (s : string) : Z + NumError :=
  match s with
  | EmptyString => inr ErrSyntax
  | _ => parseUint_loop 0 s
  end.

(** [ParseInt(s, 10, 0)] on a 64-bit platform. *)
Definition ParseInt (s : string) : Z + NumError :=
  match s with
  | EmptyString => inr ErrSyntax
  | String c s' =>
      let '(neg, s1) :=
        if Ascii.eqb c "+" then (false, s')
        else if Ascii.eqb c "-" then (true, s')
        else (false, s) in
      match ParseUint s1 with
      | inr ErrSyntax => inr ErrSyntax
      | inr ErrRange => inr ErrRange
      | inl un =>
          let cutoff := 2 ^ 63 in
          if negb neg && (cutoff <=? un) then inr ErrRange
          else if neg && (cutoff <? un) then inr ErrRange
          else
            let n := wrap64 un in
            inl (if neg then wrap64 (- n) else n)
      end
  end.

(** [Atoi(s)] is equivalent to [ParseInt(s, 10, 0)] converted to [int]. *)
Definition Atoi (s : string) : Z + NumError := ParseInt s.

End strconv.

(** ** [math/big]: [Int.SetString(s, 10)] *)

Module big.

(** The digit scan of [nat.scan] in base 10; it consumes digits up to the
    first other byte, and [SetString] fails unless that is the end. *)
Fixpoint scan_digits (acc : Z) (s : string) : option Z :=
  match s with
  | EmptyString => Some acc
  | String c s' =>
      if in_range "0" "9" c then scan_digits (acc * 10 + (byte_of c - 48)) s'
      else None
  end.

(** An optional sign, then at least one decimal digit, then the end of the
    string.  The result is an arbitrary-precision signed integer. *)
Definition SetString (s : string) : option Z :=
  match s with
  | EmptyString => None
  | String c s' =>
      let '(neg, ds) :=
        if Ascii.eqb c "+" then (false, s')
        else if Ascii.eqb c "-" then (true, s')
        else (false, s) in
      match ds with
      | EmptyString => None
      | _ =>
          match scan_digits 0 ds with
          | Some n => Some (if neg then - n else n)
          | None => None
          end
      end
  end.

End big.

(** ** [time]: durations and the monotonic clock *)

Module time.

(** [Duration] is an [int64] count of nanoseconds. *)
Definition Duration : Type := Z.

Definition Nanosecond : Duration := 1.
Definition Microsecond : Duration := 1000 * Nanosecond.
Definition Millisecond : Duration := 1000 * Microsecond.
Definition Second : Duration := 1000 * Millisecond.
Definition Minute : Duration := 60 * Second.
Definition Hour : Duration := 60 * Minute.

Definition minDuration : Duration := minInt64.
Definition maxDuration : Duration := maxInt64.

(** A [Time] obtained from [time.Now()] carries a monotonic clock reading;
    [Since] and [Sub] compare those readings, in nanoseconds. *)
Definition Time : Type := Z.

(** [t.Sub(u)]: the difference, saturated to [minDuration] and
    [maxDuration] when it does not fit a [Duration]. *)
Definition Sub (t u : Time) : Duration :=
  if maxDuration <? t - u then maxDuration
  else if t - u <? minDuration then minDuration
  else t - u.

(** [lessThanHalf(x, y)] reports [uint64(x)+uint64(x) < uint64(y)]. *)
Definition lessThanHalf (x y : Duration) : bool :=
  wrapU64 (wrapU64 x + wrapU64 x) <? wrapU64 y.

(** [d.Round(m)]: [d] rounded to the nearest multiple of [m], halfway
    values away from zero; Go's [%] is the truncated remainder. *)
Definition Round (d m : Duration) : Duration :=
  if m <=? 0 then d
  else
    let r := Z.rem d m in
    if d <? 0 then
      let r := wrap64 (- r) in
      if lessThanHalf r m then wrap64 (d + r)
      else
        let d1 := wrap64 (wrap64 (d - m) + r) in
        if d1 <? d then d1 else minDuration
    else
      if lessThanHalf r m then wrap64 (d - r)
      else
        let d1 := wrap64 (wrap64 (d + m) - r) in
        if d <? d1 then d1 else maxDuration.

(** [fmtFrac(buf, v, prec)]: the fraction of [v/10^prec] without trailing
    zeros, written in front of [acc]; also returns [v/10^prec]. *)
Fixpoint fmtFrac_loop (prec : nat) (v : Z) (print : bool) (acc : string)
  : string * Z * bool :=
  match prec with
  | O => (acc, v, print)
  | S prec' =>
      let digit := v mod 10 in
      let print := print || negb (digit =? 0) in
      let acc := if print then String (char_of (digit + 48)) acc else acc in
      fmtFrac_loop prec' (v / 10) print acc
  end.

Definition fmtFrac (acc : string) (v : Z) (prec : nat) : string * Z :=
  let '(acc, v, print) := fmtFrac_loop prec v false acc in
  (if print then String "." acc else acc, v).

Definition fmtInt (acc : string) (v : Z) : string := strconv.fmtUint v acc.

(** [d.String()], as in ["72h3m0.5s"]; the buffer of the source is filled
    from its end, so each step here writes in front of the text so far. *)
Definition String_ (d : Duration) : string :=
  let neg := d <? 0 in
  let u := wrapU64 d in
  let u := if neg then wrapU64 (- u) else u in
  let body :=
    if u <? Second then
      if u =? 0 then "0s"%string
      else
        let '(unit, prec) :=
          if u <? Microsecond then ("ns"%string, 0%nat)
          else if u <? Millisecond then
            (String (char_of 194) (String (char_of 181) "s"), 3%nat)
          else ("ms"%string, 6%nat) in
        let '(acc, u) := fmtFrac unit u prec in
        fmtInt acc u
    else
      let '(acc, u) := fmtFrac "s" u 9 in
      let acc := fmtInt acc (u mod 60) in
      let u := u / 60 in
      if 0 <? u then
        let acc := fmtInt (String "m" acc) (u mod 60) in
        let u := u / 60 in
        if 0 <? u then fmtInt (String "h" acc) u else acc
      else acc in
  if neg then String "-" body else body.

End time.

(** ** [context] *)

Module context.

(** The contexts of package [context] by construction.  [Background()]
    is never cancelled and has no deadline. *)
Inductive Context : Type :=
| Background
| WithCancel (parent : Context)
| WithDeadline (parent : Context) (d : time.Time).

(** [ctx.Deadline()]; [None] is [ok == false]. *)
Fixpoint Deadline (ctx : Context) : option time.Time :=
  match ctx with
  | Background => None
  | WithCancel parent => Deadline parent
  | WithDeadline parent d =>
      match Deadline parent with
      | Some d' => Some (Z.min d' d)
      | None => Some d
      end
  end.

(** Whether [ctx.Done()] is a channel that can ever be closed. *)
Definition cancellable (ctx : Context) : bool :=
  match ctx with
  | Background => false
  | WithCancel _ => true
  | WithDeadline _ _ => true
  end.

End context.

(** ** go-ethereum [core/types] and [crypto] *)

Definition Hash : Type := list Z.

Module crypto.

Definition PrivateKey : Type := Z.
Definition PublicKey : Type := (Z * Z)%type.

(** The 65-byte [[R || S || V]] signature of [crypto.Sign], [V] being the
    recovery id 0 or 1. *)
Record Signature : Type := { sig_r : Z; sig_s : Z; sig_v : Z }.

(** One element of the list that [rlpHash] encodes and hashes. *)
Inductive Item : Type :=
| IUint (n : Z)
| IBig (n : Z)
| IAddr (a : option common.Address)
| IBytes (b : list Z).

(** The cryptographic primitives, which are not embedded: secp256k1 and
    Keccak-256 over the RLP encoding. *)
Record Lib : Type := {
  HexToECDSA : string -> Result PrivateKey;
  Public : PrivateKey -> PublicKey;
  PubkeyToAddress : PublicKey -> common.Address;
  Sign : Hash -> PrivateKey -> Result Signature;
  rlpHash : list Item -> Hash
}.

End crypto.

Module types.

(** A legacy transaction ([LegacyTx]) with its signature values. *)
Record Transaction : Type := {
  Nonce : Z;
  GasPrice : Z;
  Gas : Z;
  To : option common.Address;
  Value : Z;
  Data : list Z;
  V : Z;
  R : Z;
  S : Z
}.

Definition NewTransaction (nonce : Z) (to : common.Address) (amount : Z)
    (gasLimit : Z) (gasPrice : Z) (data : list Z) : Transaction :=
  {| Nonce := nonce; GasPrice := gasPrice; Gas := gasLimit; To := Some to;
     Value := amount; Data := data; V := 0; R := 0; S := 0 |}.

Record EIP155Signer : Type := { chainId : Z; chainIdMul : Z }.

Definition NewEIP155Signer (chainId : Z) : EIP155Signer :=
  {| chainId := chainId; chainIdMul := chainId * 2 |}.

(** [s.Hash(tx)]: the fields that the signature covers; the chain
    identity is one of them. *)
Definition sigFields (s : EIP155Signer) (tx : Transaction) : list crypto.Item :=
  [crypto.IUint (Nonce tx); crypto.IBig (GasPrice tx); crypto.IUint (Gas tx);
   crypto.IAddr (To tx); crypto.IBig (Value tx); crypto.IBytes (Data tx);
   crypto.IBig (chainId s); crypto.IUint 0; crypto.IUint 0].

(** [s.SignatureValues(tx, sig)] for a legacy transaction. *)
Definition SignatureValues (s : EIP155Signer) (sig : crypto.Signature)
  : Z * Z * Z :=
  let v := if chainId s =? 0 then crypto.sig_v sig + 27
           else crypto.sig_v sig + 35 + chainIdMul s in
  (crypto.sig_r sig, crypto.sig_s sig, v).

Definition WithSignature (tx : Transaction) (s : EIP155Signer)
    (sig : crypto.Signature) : Transaction :=
  let '(r, s', v) := SignatureValues s sig in
  {| Nonce := Nonce tx; GasPrice := GasPrice tx; Gas := Gas tx; To := To tx;
     Value := Value tx; Data := Data tx; V := v; R := r; S := s' |}.

Definition SignTx (lib : crypto.Lib) (tx : Transaction) (s : EIP155Signer)
    (prv : crypto.PrivateKey) : Result Transaction :=
  let h := crypto.rlpHash lib (sigFields s tx) in
  match crypto.Sign lib h prv with
  | inr err => inr err
  | inl sig => inl (WithSignature tx s sig)
  end.

(** [tx.Hash()] of a legacy transaction: the hash of all its fields. *)
Definition Hash_ (lib : crypto.Lib) (tx : Transaction) : Hash :=
  crypto.rlpHash lib
    [crypto.IUint (Nonce tx); crypto.IBig (GasPrice tx); crypto.IUint (Gas tx);
     crypto.IAddr (To tx); crypto.IBig (Value tx); crypto.IBytes (Data tx);
     crypto.IBig (V tx); crypto.IBig (R tx); crypto.IBig (S tx)].

End types.

Definition hexdigit (n : Z) : ascii :=
  if n <? 10 then char_of (n + 48) else char_of (n - 10 + 97).

(** [h.Hex()]: ["0x"] and two lower-case hexadecimal digits per byte. *)
Fixpoint hex_encode (b : list Z) : string :=
  match b with
  | [] => EmptyString
  | x :: b' => String (hexdigit (x / 16)) (String (hexdigit (x mod 16)) (hex_encode b'))
  end.

Definition Hash_Hex (h : Hash) : string := String "0" (String "x" (hex_encode h)).

(** ** The ledger client and the rest of the environment *)

Module ethclient.

(** A connection handle, as returned by [Dial(rawurl)]. *)
Record Client : Type := { rawurl : string }.

(** [ethereum.CallMsg]; the fields [SendTokens] leaves out are zero. *)
Record CallMsg : Type := {
  From : common.Address;
  To : option common.Address;
  Gas : Z;
  GasPrice : option Z;
  Value : option Z;
  Data : list Z
}.

End ethclient.

(** What the process observes of the outside: its environment variables
    (after [godotenv.Load]), the answers of the ledger node, and the
    successive readings of the monotonic clock. *)
Record World : Type := {
  Getenv : string -> string;
  Dial : string -> Result ethclient.Client;
  ChainID : ethclient.Client -> context.Context -> Result Z;
  PendingNonceAt :
    ethclient.Client -> context.Context -> common.Address -> Result Z;
  SuggestGasPrice : ethclient.Client -> context.Context -> Result Z;
  EstimateGas :
    ethclient.Client -> context.Context -> ethclient.CallMsg -> Result Z;
  SendTransaction :
    ethclient.Client -> context.Context -> types.Transaction -> option string;
  BalanceAt :
    ethclient.Client -> context.Context -> common.Address -> option Z -> Result Z;
  clock : nat -> time.Time
}.

(** What a run does to its collaborators, in order. *)
Inductive Event : Type :=
| CallChainID (c : ethclient.Client) (ctx : context.Context)
| CallPendingNonceAt (c : ethclient.Client) (ctx : context.Context)
    (account : common.Address)
| CallSuggestGasPrice (c : ethclient.Client) (ctx : context.Context)
| CallEstimateGas (c : ethclient.Client) (ctx : context.Context)
    (msg : ethclient.CallMsg)
| CallSendTransaction (c : ethclient.Client) (ctx : context.Context)
    (tx : types.Transaction)
| CallBalanceAt (c : ethclient.Client) (ctx : context.Context)
    (account : common.Address) (blockNumber : option Z)
| TableRead (key : string)
| TableWrite (key : string) (t : time.Time).

(** The context a ledger call was made under. *)
Definition ctx_of (ev : Event) : option context.Context :=
  match ev with
  | CallChainID _ ctx | CallPendingNonceAt _ ctx _ | CallSuggestGasPrice _ ctx
  | CallEstimateGas _ ctx _ | CallSendTransaction _ ctx _
  | CallBalanceAt _ ctx _ _ => Some ctx
  | TableRead _ | TableWrite _ _ => None
  end.

Definition is_ledger_call (ev : Event) : bool :=
  match ctx_of ev with Some _ => true | None => false end.

(** The error the node answers a ledger call with, if it does. *)
Definition call_error (w : World) (ev : Event) : option string :=
  let err {A} (r : Result A) : option string :=
    match r with inl _ => None | inr e => Some e end in
  match ev with
  | CallChainID c ctx => err (ChainID w c ctx)
  | CallPendingNonceAt c ctx a => err (PendingNonceAt w c ctx a)
  | CallSuggestGasPrice c ctx => err (SuggestGasPrice w c ctx)
  | CallEstimateGas c ctx msg => err (EstimateGas w c ctx msg)
  | CallSendTransaction c ctx tx => SendTransaction w c ctx tx
  | CallBalanceAt c ctx a bn => err (BalanceAt w c ctx a bn)
  | TableRead _ | TableWrite _ _ => None
  end.

(** ** The faucet *)

(** [type Faucet struct].  The lock [mu] guards [usedAddresses]; runs are
    sequential here, and each guarded access appears as a [TableRead] or
    [TableWrite] event. *)
Record Faucet : Type := {
  client : ethclient.Client;
  privateKey : crypto.PrivateKey;
  fromAddress : common.Address;
  chainID : Z;
  amount : Z;
  usedAddresses : gmap string time.Time;
  cooldown : time.Duration
}.

Record Request : Type := { Address : string }.

Record Response : Type := {
  Success : bool;
  Message : string;
  TxHash : string
}.

(** The store a method of [*Faucet] runs on: the struct behind the pointer,
    and how many readings of the clock have been taken so far. *)
Record Machine : Type := { fc : Faucet; ticks : nat }.

(** A Go function with results [(A, error)] that runs on a store [St] and
    leaves a trace.  A [return nil, err] ends the run, keeping the store and
    the trace so far. *)
Definition Prog (St A : Type) : Type := St -> Result A * St * list Event.

Definition run {St A} (p : Prog St A) (st : St) : Result A * St * list Event :=
  p st.

Definition result_of {St A} (o : Result A * St * list Event) : Result A := o.1.1.
Definition store_of {St A} (o : Result A * St * list Event) : St := o.1.2.
Definition trace_of {St A} (o : Result A * St * list Event) : list Event := o.2.

#[global] Instance prog_ret {St} : MRet (Prog St) :=
  fun A a st => (inl a, st, []).

#[global] Instance prog_bind {St} : MBind (Prog St) :=
  fun A B f p st =>
    match p st with
    | (inl a, st1, t1) =>
        match f a st1 with
        | (r, st2, t2) => (r, st2, t1 ++ t2)
        end
    | (inr e, st1, t1) => (inr e, st1, t1)
    end.

(** [return nil, fmt.Errorf(...)] with the message already formatted. *)
Definition fail {St A} (msg : string) : Prog St A :=
  fun st => (inr msg, st, []).

(** [v, err := call(...); if err != nil { return nil, fmt.Errorf(format, err) }]. *)
Definition or_fail {St A} (p : Prog St (Result A)) (format : string -> string)
  : Prog St A :=
  r ← p;
  match r with
  | inl v => mret v
  | inr err => fail (format err)
  end.

(** [v, err := f(...)] where the caller goes on to inspect [err]. *)
Definition attempt {St A} (p : Prog St A) : Prog St (Result A) :=
  fun st =>
    match p st with
    | (r, st1, t1) => (inl r, st1, t1)
    end.

Definition emit {St A} (ev : Event) (a : A) : Prog St A :=
  fun st => (inl a, st, [ev]).

Definition of_nil (e : option string) : Result unit :=
  match e with
  | None => inl tt
  | Some err => inr err
  end.

Section Engine.

Variable lib : crypto.Lib.
Variable w : World.

Definition get_faucet : Prog Machine Faucet :=
  fun m => (inl (fc m), m, []).

(** [time.Now()]: the next reading of the clock. *)
Definition time_Now : Prog Machine time.Time :=
  fun m => (inl (clock w (ticks m)), {| fc := fc m; ticks := S (ticks m) |}, []).

(** [time.Since(t)] is [time.Now().Sub(t)]. *)
Definition time_Since (t : time.Time) : Prog Machine time.Duration :=
  now ← time_Now;
  mret (time.Sub now t).

(** [f.mu.RLock(); v, ok := f.usedAddresses[key]; f.mu.RUnlock()]. *)
Definition table_read (key : string) : Prog Machine (option time.Time) :=
  fun m => (inl (usedAddresses (fc m) !! key), m, [TableRead key]).

(** [f.mu.Lock(); f.usedAddresses[key] = t; f.mu.Unlock()]. *)
Definition table_write (key : string) (t : time.Time) : Prog Machine unit :=
  fun m =>
    let f := fc m in
    (inl tt,
     {| fc := {| client := client f; privateKey := privateKey f;
                 fromAddress := fromAddress f; chainID := chainID f;
                 amount := amount f;
                 usedAddresses := <[key := t]> (usedAddresses f);
                 cooldown := cooldown f |};
        ticks := ticks m |},
     [TableWrite key t]).

Definition client_ChainID {St} (c : ethclient.Client) (ctx : context.Context)
  : Prog St (Result Z) :=
  emit (CallChainID c ctx) (ChainID w c ctx).

Definition client_PendingNonceAt {St} (c : ethclient.Client)
    (ctx : context.Context) (account : common.Address) : Prog St (Result Z) :=
  emit (CallPendingNonceAt c ctx account) (PendingNonceAt w c ctx account).

Definition client_SuggestGasPrice {St} (c : ethclient.Client)
    (ctx : context.Context) : Prog St (Result Z) :=
  emit (CallSuggestGasPrice c ctx) (SuggestGasPrice w c ctx).

Definition client_EstimateGas {St} (c : ethclient.Client)
    (ctx : context.Context) (msg : ethclient.CallMsg) : Prog St (Result Z) :=
  emit (CallEstimateGas c ctx msg) (EstimateGas w c ctx msg).

Definition client_SendTransaction {St} (c : ethclient.Client)
    (ctx : context.Context) (tx : types.Transaction) : Prog St (Result unit) :=
  emit (CallSendTransaction c ctx tx) (of_nil (SendTransaction w c ctx tx)).

Definition client_BalanceAt {St} (c : ethclient.Client)
    (ctx : context.Context) (account : common.Address)
    (blockNumber : option Z) : Prog St (Result Z) :=
  emit (CallBalanceAt c ctx account blockNumber)
       (BalanceAt w c ctx account blockNumber).

(** [NewFaucet]: the faucet, or the start-up error. *)
Definition NewFaucet : Prog unit Faucet :=
  (* Connect to Ethereum network *)
  let rpcURL := Getenv w "RPC_URL" in
  let rpcURL := if String.eqb rpcURL "" then "http://localhost:8545"%string
                else rpcURL in
  client ← or_fail (mret (Dial w rpcURL))
    (fun err => "failed to connect to Ethereum network: " +:+ err);
  (* Get private key from environment *)
  let privateKeyHex := Getenv w "PRIVATE_KEY" in
  if String.eqb privateKeyHex "" then
    fail "PRIVATE_KEY environment variable is required"
  else
  privateKey ← or_fail (mret (crypto.HexToECDSA lib privateKeyHex))
    (fun err => "invalid private key: " +:+ err);
  (* the public key of an ECDSA private key is an ECDSA public key: the
     type assertion of the source cannot fail *)
  let publicKeyECDSA := crypto.Public lib privateKey in
  let fromAddress := crypto.PubkeyToAddress lib publicKeyECDSA in
  (* Get chain ID *)
  chainID ← or_fail (client_ChainID client context.Background)
    (fun err => "failed to get chain ID: " +:+ err);
  (* Get amount from environment (in wei) *)
  let amountStr := Getenv w "FAUCET_AMOUNT" in
  let amountStr := if String.eqb amountStr "" then "1000000000000000000"%string
                   else amountStr in
  match big.SetString amountStr with
  | None => fail "invalid FAUCET_AMOUNT"
  | Some amount =>
      (* Get cooldown from environment *)
      let cooldownStr := Getenv w "COOLDOWN_HOURS" in
      let cooldownStr := if String.eqb cooldownStr "" then "24"%string
                         else cooldownStr in
      match strconv.Atoi cooldownStr with
      | inr _ => fail "invalid COOLDOWN_HOURS"
      | inl cooldownHours =>
          mret {| client := client;
                  privateKey := privateKey;
                  fromAddress := fromAddress;
                  chainID := chainID;
                  amount := amount;
                  usedAddresses := ∅;
                  cooldown := wrap64 (cooldownHours * time.Hour) |}
      end
  end.

(** [SendTokens], a method of the faucet: the signed transaction, or the
    error of the request. *)
Definition SendTokens (toAddress : string) : Prog Machine types.Transaction :=
  (* Validate address *)
  if negb (common.IsHexAddress toAddress) then
    fail "invalid Ethereum address"
  else
  f ← get_faucet;
  (* Check if address has been used recently *)
  lastUsed ← table_read toAddress;
  _ ← match lastUsed with
      | Some lastUsed =>
          since ← time_Since lastUsed;
          if since <? cooldown f then
            since' ← time_Since lastUsed;
            let remaining := wrap64 (cooldown f - since') in
            fail ("address " +:+ toAddress +:+ " can request again in "
                  +:+ time.String_ (time.Round remaining time.Minute))
          else mret tt
      | None => mret tt
      end;
  (* Get nonce *)
  nonce ← or_fail (client_PendingNonceAt (client f) context.Background (fromAddress f))
    (fun err => "failed to get nonce: " +:+ err);
  (* Get gas price *)
  gasPrice ← or_fail (client_SuggestGasPrice (client f) context.Background)
    (fun err => "failed to get gas price: " +:+ err);
  (* Prepare call message to estimate gas for the actual send transaction *)
  let to := common.HexToAddress toAddress in
  gas ← or_fail (client_EstimateGas (client f) context.Background
                   {| ethclient.From := fromAddress f;
                      ethclient.To := Some to;
                      ethclient.Gas := 0;
                      ethclient.GasPrice := None;
                      ethclient.Value := Some (amount f);
                      ethclient.Data := [] |})
    (fun err => "failed to estimate gas: " +:+ err);
  (* Create transaction *)
  let tx := types.NewTransaction nonce (common.HexToAddress toAddress)
              (amount f) gas gasPrice [] in
  (* Sign transaction *)
  signedTx ← or_fail
    (mret (types.SignTx lib tx (types.NewEIP155Signer (chainID f)) (privateKey f)))
    (fun err => "failed to sign transaction: " +:+ err);
  (* Send transaction *)
  _ ← or_fail (client_SendTransaction (client f) context.Background signedTx)
    (fun err => "failed to send transaction: " +:+ err);
  (* Mark address as used *)
  now ← time_Now;
  _ ← table_write toAddress now;
  mret signedTx.

(** [GetBalance], a method of the faucet. *)
Definition GetBalance : Prog Machine Z :=
  f ← get_faucet;
  or_fail (client_BalanceAt (client f) context.Background (fromAddress f) None)
    (fun err => err).

(** The handler of [POST /request]; [bound] is the outcome of
    [c.ShouldBindJSON(&req)], and the result is the status code with the
    JSON body. *)
Definition handleRequest (bound : option Request) : Prog Machine (Z * Response) :=
  match bound with
  | None =>
      mret (400, {| Success := false; Message := "Invalid request format";
                    TxHash := "" |})
  | Some req =>
      (* Send tokens *)
      r ← attempt (SendTokens (Address req));
      match r with
      | inr err =>
          mret (400, {| Success := false; Message := err; TxHash := "" |})
      | inl tx =>
          mret (200, {| Success := true; Message := "Tokens sent successfully!";
                        TxHash := Hash_Hex (types.Hash_ lib tx) |})
      end
  end.

End Engine.


(** ** Vocabulary of the properties *)

Definition chars (s : string) : list ascii := list_ascii_of_string s.

Definition hex_digit (c : ascii) : Prop := c ∈ chars "0123456789abcdefABCDEF".

Definition decimal_digit (c : ascii) : Prop := c ∈ chars "0123456789".

(** An account address in hexadecimal: 40 hexadecimal digits, with or
    without the prefix [0x] or [0X]. *)
Definition hex_address_syntax (s : string) : Prop :=
  ∃ body : string,
    (s = body ∨ s = "0x" +:+ body ∨ s = "0X" +:+ body)
    ∧ String.length body = 40%nat
    ∧ Forall hex_digit (chars body).

(** A base-10 unsigned integer: one or more decimal digits. *)
Definition unsigned_decimal (s : string) : Prop :=
  s ≠ EmptyString ∧ Forall decimal_digit (chars s).

(** A base-10 signed integer: an optional [+] or [-], then the digits. *)
Definition signed_decimal (s : string) : Prop :=
  ∃ sign ds : string,
    s = sign +:+ ds
    ∧ (sign = "" ∨ sign = "+" ∨ sign = "-")%string
    ∧ unsigned_decimal ds.

(** [r] is a multiple of [m] nearest to [d]. *)
Definition nearest_multiple (m d r : Z) : Prop :=
  (m | r) ∧ 2 * Z.abs (r - d) <= m.

Definition is_int64 (z : Z) : Prop := minInt64 <= z <= maxInt64.

Definition lower (c : ascii) : ascii :=
  if in_range "A" "Z" c then char_of (byte_of c + 32) else c.

(** Two strings that differ at most in the case of their letters. *)
Definition same_modulo_case (s1 s2 : string) : Prop :=
  lower <$> chars s1 = lower <$> chars s2.

(** The text [SendTokens] puts in front of the error of a ledger call. *)
Definition failure_prefix (ev : Event) : string :=
  match ev with
  | CallPendingNonceAt _ _ _ => "failed to get nonce: "
  | CallSuggestGasPrice _ _ => "failed to get gas price: "
  | CallEstimateGas _ _ _ => "failed to estimate gas: "
  | CallSendTransaction _ _ _ => "failed to send transaction: "
  | _ => ""
  end.

(** A ledger call is bounded when its context can be cancelled and carries
    a deadline. *)
Definition under_deadline (ev : Event) : bool :=
  match ctx_of ev with
  | Some ctx =>
      context.cancellable ctx
      && match context.Deadline ctx with Some _ => true | None => false end
  | None => true
  end.

Definition under_background (ev : Event) : Prop :=
  match ctx_of ev with
  | Some ctx => ctx = context.Background
  | None => True
  end.

(** The configuration of a faucet: every field but the cooldown table. *)
Definition same_config (f g : Faucet) : Prop :=
  client f = client g ∧ privateKey f = privateKey g
  ∧ fromAddress f = fromAddress g ∧ chainID f = chainID g
  ∧ amount f = amount g ∧ cooldown f = cooldown g.

(** The world [w] with the environment variable [key] set to [value]. *)
Definition setenv (w : World) (key value : string) : World :=
  {| Getenv := fun k => if String.eqb k key then value else Getenv w k;
     Dial := Dial w; ChainID := ChainID w; PendingNonceAt := PendingNonceAt w;
     SuggestGasPrice := SuggestGasPrice w; EstimateGas := EstimateGas w;
     SendTransaction := SendTransaction w; BalanceAt := BalanceAt w;
     clock := clock w |}.

Definition with_amount (f : Faucet) (a : Z) : Faucet :=
  {| client := client f; privateKey := privateKey f;
     fromAddress := fromAddress f; chainID := chainID f; amount := a;
     usedAddresses := usedAddresses f; cooldown := cooldown f |}.

Definition with_cooldown (f : Faucet) (d : time.Duration) : Faucet :=
  {| client := client f; privateKey := privateKey f;
     fromAddress := fromAddress f; chainID := chainID f; amount := amount f;
     usedAddresses := usedAddresses f; cooldown := d |}.

(** The signed transaction [SendTokens] builds for [toAddress] from the
    answers of the ledger and the signature. *)
Definition signed_transfer_of (f : Faucet) (toAddress : string)
    (nonce gasPrice gas : Z) (sig : crypto.Signature) : types.Transaction :=
  {| types.Nonce := nonce; types.GasPrice := gasPrice; types.Gas := gas;
     types.To := Some (common.HexToAddress toAddress);
     types.Value := amount f; types.Data := [];
     types.V := if chainID f =? 0 then crypto.sig_v sig + 27
                else crypto.sig_v sig + 35 + chainID f * 2;
     types.R := crypto.sig_r sig; types.S := crypto.sig_s sig |}.

(** The request passes the eligibility check of [SendTokens]. *)
Definition eligible (w : World) (m : Machine) (toAddress : string) : Prop :=
  match usedAddresses (fc m) !! toAddress with
  | Some lastUsed =>
      cooldown (fc m) <= time.Sub (clock w (ticks m)) lastUsed
  | None => True
  end.

(** ** A local test network, for concrete runs *)

Module Demo.

Definition lib : crypto.Lib :=
  {| crypto.HexToECDSA := fun _ => inl 1;
     crypto.Public := fun k => (k, k);
     crypto.PubkeyToAddress := fun _ => repeat 0 19 ++ [1];
     crypto.Sign := fun _ _ =>
       inl {| crypto.sig_r := 1; crypto.sig_s := 2; crypto.sig_v := 0 |};
     crypto.rlpHash := fun _ => repeat 171 32 |}.

(** A node that answers every call; the clock advances twenty minutes per
    reading; one hour of cooldown. *)
Definition world : World :=
  {| Getenv := fun k =>
       if String.eqb k "PRIVATE_KEY" then "01"%string
       else if String.eqb k "COOLDOWN_HOURS" then "1"%string
       else ""%string;
     Dial := fun u => inl {| ethclient.rawurl := u |};
     ChainID := fun _ _ => inl 1337;
     PendingNonceAt := fun _ _ _ => inl 7;
     SuggestGasPrice := fun _ _ => inl 1000000000;
     EstimateGas := fun _ _ _ => inl 21000;
     SendTransaction := fun _ _ _ => None;
     BalanceAt := fun _ _ _ _ => inl 5;
     clock := fun n => Z.of_nat n * (20 * time.Minute) |}.

(** The same node, out of funds: it rejects every submission. *)
Definition broke : World :=
  {| Getenv := Getenv world; Dial := Dial world; ChainID := ChainID world;
     PendingNonceAt := PendingNonceAt world;
     SuggestGasPrice := SuggestGasPrice world;
     EstimateGas := EstimateGas world;
     SendTransaction := fun _ _ _ => Some "insufficient funds"%string;
     BalanceAt := BalanceAt world; clock := clock world |}.

Definition faucet : Faucet :=
  {| client := {| ethclient.rawurl := "http://localhost:8545" |};
     privateKey := 1;
     fromAddress := repeat 0 19 ++ [1];
     chainID := 1337;
     amount := 1000000000000000000;
     usedAddresses := ∅;
     cooldown := time.Hour |}.

Definition fresh : Machine := {| fc := faucet; ticks := 0 |}.

Definition alice : string := "0xabcdefabcdefabcdefabcdefabcdefabcdefabcd".
Definition ALICE : string := "0xABCDEFABCDEFABCDEFABCDEFABCDEFABCDEFABCD".
Definition bob : string := "0x742d35Cc6634C0532925a3b8D4C9db96C4b4d8b6".

(** The faucet after one disbursement to [alice]. *)
Definition served : Machine := store_of (run (SendTokens lib world alice) fresh).

(** The clock of the example of the specification: a request at minute 0,
    one at minute 30 (two readings), one at minute 61 (two readings). *)
Definition timeline : World :=
  {| Getenv := Getenv world; Dial := Dial world; ChainID := ChainID world;
     PendingNonceAt := PendingNonceAt world;
     SuggestGasPrice := SuggestGasPrice world;
     EstimateGas := EstimateGas world;
     SendTransaction := SendTransaction world;
     BalanceAt := BalanceAt world;
     clock := fun n => List.nth n [0; 30; 30; 61; 61] 0 * time.Minute |}.

(** The same faucet an hour after that disbursement. *)
Definition later : Machine := {| fc := fc served; ticks := 3 |}.

(** The same faucet configured with minus three hours of cooldown. *)
Definition lenient : Machine :=
  {| fc := with_cooldown (fc served) (wrap64 (-3 * time.Hour)); ticks := 1 |}.

End Demo.

(** ** Start-up and the request loop *)




(** The stores the handler can leave behind when requests are served one
    after the other, each against the node as it answers at that moment; the
    clock is the same throughout. *)
Inductive served (lib : crypto.Lib) (ck : nat -> time.Time)
  : Machine -> Machine -> Prop :=
| served_none (m : Machine) : served lib ck m m
| served_next (m m1 : Machine) (w : World) (bound : option Request) :
    served lib ck m m1 ->
    clock w = ck ->
    served lib ck m (store_of (run (handleRequest lib w bound) m1)).

(** Every key of the cooldown table is a string [IsHexAddress] accepts, and
    every timestamp is a reading of the clock taken earlier. *)
Definition table_ok (ck : nat -> time.Time) (m : Machine) : Prop :=
  forall (key : string) (t : time.Time),
    usedAddresses (fc m) !! key = Some t ->
    common.IsHexAddress key = true
    /\ exists i : nat, (i < ticks m)%nat /\ t = ck i.

(** The effective value of an environment variable with a default. *)
Definition getenv_or (w : World) (key default : string) : string :=
  if String.eqb (Getenv w key) "" then default else Getenv w key.

(** How many readings of the clock the eligibility check of a request
    takes: one when the string has an entry, none otherwise. *)
Definition check_reads (m : Machine) (toAddress : string) : nat :=
  match usedAddresses (fc m) !! toAddress with
  | Some _ => 1
  | None => 0
  end.

(** [f.usedAddresses[key] = t]. *)
Definition record_used (f : Faucet) (key : string) (t : time.Time) : Faucet :=
  {| client := client f; privateKey := privateKey f;
     fromAddress := fromAddress f; chainID := chainID f; amount := amount f;
     usedAddresses := <[key := t]> (usedAddresses f);
     cooldown := cooldown f |}.

Definition is_table_write (ev : Event) : bool :=
  match ev with
  | TableWrite _ _ => true
  | _ => false
  end.

(** A string with its letters in lower case. *)
Fixpoint lower_str (s : string) : string :=
  match s with
  | EmptyString => EmptyString
  | String c s' => String (lower c) (lower_str s')
  end.


(** ** Further situations on the test network *)

Module Cases.

(** No node answers the dial. *)
Definition offline : World :=
  {| Getenv := Getenv Demo.world;
     Dial := fun _ => inr "connection refused"%string;
     ChainID := ChainID Demo.world;
     PendingNonceAt := PendingNonceAt Demo.world;
     SuggestGasPrice := SuggestGasPrice Demo.world;
     EstimateGas := EstimateGas Demo.world;
     SendTransaction := SendTransaction Demo.world;
     BalanceAt := BalanceAt Demo.world; clock := clock Demo.world |}.

(** A signing primitive that refuses every hash. *)
Definition mute : crypto.Lib :=
  {| crypto.HexToECDSA := crypto.HexToECDSA Demo.lib;
     crypto.Public := crypto.Public Demo.lib;
     crypto.PubkeyToAddress := crypto.PubkeyToAddress Demo.lib;
     crypto.Sign := fun _ _ => inr "invalid private key"%string;
     crypto.rlpHash := crypto.rlpHash Demo.lib |}.

Definition ask (a : string) : option Request := Some {| Address := a |}.

End Cases.

(** * Properties *)

(** ** The library models on concrete inputs *)

Example IsHexAddress_examples :
  common.IsHexAddress "0x742d35Cc6634C0532925a3b8D4C9db96C4b4d8b6" = true
  /\ common.IsHexAddress "742d35Cc6634C0532925a3b8D4C9db96C4b4d8b6" = true
  /\ common.IsHexAddress "0x742d35Cc6634C0532925a3b8D4C9db96C4b4d8b" = false
  /\ common.IsHexAddress "0x742d35Cc6634C0532925a3b8D4C9db96C4b4d8bg" = false
  /\ common.IsHexAddress "" = false.
Proof. repeat split; reflexivity. Qed.

Example HexToAddress_example :
  common.HexToAddress "0x00000000000000000000000000000000000001fF"
  = repeat 0 18 ++ [1; 255].
Proof. reflexivity. Qed.

Example Atoi_examples :
  strconv.Atoi "24" = inl 24
  /\ strconv.Atoi "-24" = inl (-24)
  /\ strconv.Atoi "+0" = inl 0
  /\ strconv.Atoi "" = inr strconv.ErrSyntax
  /\ strconv.Atoi "1_000" = inr strconv.ErrSyntax
  /\ strconv.Atoi "9223372036854775807" = inl maxInt64
  /\ strconv.Atoi "9223372036854775808" = inr strconv.ErrRange
  /\ strconv.Atoi "-9223372036854775808" = inl minInt64.
Proof. repeat split; reflexivity. Qed.

Example SetString_examples :
  big.SetString "1000000000000000000" = Some (10 ^ 18)
  /\ big.SetString "-5" = Some (-5)
  /\ big.SetString "36893488147419103232" = Some (2 ^ 65)
  /\ big.SetString "1e18" = None
  /\ big.SetString "+" = None
  /\ big.SetString "" = None.
Proof. repeat split; reflexivity. Qed.

Example Round_examples :
  time.Round (29 * time.Minute + 30 * time.Second) time.Minute = 30 * time.Minute
  /\ time.Round (29 * time.Minute + 29 * time.Second) time.Minute = 29 * time.Minute
  /\ time.Round (- (90 * time.Second)) time.Minute = - (2 * time.Minute)
  /\ time.Round 0 time.Minute = 0.
Proof. repeat split; reflexivity. Qed.

Example String_examples :
  time.String_ (24 * time.Hour) = "24h0m0s"%string
  /\ time.String_ (90 * time.Second) = "1m30s"%string
  /\ time.String_ 1500000000 = "1.5s"%string
  /\ time.String_ 1500000 = "1.5ms"%string
  /\ time.String_ 15 = "15ns"%string
  /\ time.String_ 0 = "0s"%string
  /\ time.String_ (- (30 * time.Minute)) = "-30m0s"%string
  /\ time.String_ maxInt64 = "2562047h47m16.854775807s"%string.
Proof. repeat split; reflexivity. Qed.

Example NewFaucet_example :
  run (NewFaucet Demo.lib Demo.world) tt
  = (inl Demo.faucet, tt,
     [CallChainID {| ethclient.rawurl := "http://localhost:8545" |}
        context.Background]).
Proof. reflexivity. Qed.

(** The example of the specification: with one hour of cooldown, a request
    at minute 0 is served, one at minute 30 is refused with thirty minutes
    to wait, one at minute 61 is served and recorded at minute 61. *)
Example cooldown_scenario :
  let o1 := run (SendTokens Demo.lib Demo.timeline Demo.alice) Demo.fresh in
  let o2 := run (SendTokens Demo.lib Demo.timeline Demo.alice) (store_of o1) in
  let o3 := run (SendTokens Demo.lib Demo.timeline Demo.alice) (store_of o2) in
  (exists tx, result_of o1 = inl tx)
  /\ usedAddresses (fc (store_of o1)) !! Demo.alice = Some 0
  /\ result_of o2
     = inr ("address " +:+ Demo.alice +:+ " can request again in 30m0s")
  /\ usedAddresses (fc (store_of o2)) !! Demo.alice = Some 0
  /\ (exists tx, result_of o3 = inl tx)
  /\ usedAddresses (fc (store_of o3)) !! Demo.alice = Some (61 * time.Minute).
Proof.
  cbv zeta. repeat split; try (vm_compute; reflexivity);
    eexists; vm_compute; reflexivity.
Qed.

(** ** Machine integers *)

Lemma wrap64_id (z : Z) : is_int64 z -> wrap64 z = z.
Proof.
  unfold is_int64, minInt64, maxInt64, wrap64. intros H.
  rewrite Z.mod_small; lia.
Qed.

Lemma wrapU64_id (z : Z) : 0 <= z <= maxUint64 -> wrapU64 z = z.
Proof. unfold wrapU64, maxUint64. intros H. apply Z.mod_small. lia. Qed.

Lemma byte_of_char_of (b : Z) : 0 <= b < 256 -> byte_of (char_of b) = b.
Proof.
  intros H. unfold byte_of, char_of.
  rewrite N_ascii_embedding; lia.
Qed.

Lemma in_range_spec (lo hi c : ascii) :
  in_range lo hi c = true <-> byte_of lo <= byte_of c <= byte_of hi.
Proof. unfold in_range. rewrite andb_true_iff, !Z.leb_le. tauto. Qed.

(** ** Stepping through a run *)

(** Expose the nested case analysis of a run. *)
Ltac unfold_run :=
  cbv [run NewFaucet SendTokens GetBalance handleRequest attempt or_fail fail
       emit get_faucet table_read table_write time_Since time_Now
       client_ChainID client_PendingNonceAt client_SuggestGasPrice
       client_EstimateGas client_SendTransaction client_BalanceAt of_nil
       mbind mret prog_bind prog_ret result_of store_of trace_of fst snd].

(** [branch] splits on the first scrutinee that is not itself a case
    analysis: an answer of the world, a table lookup or a test. *)
Ltac plain x :=
  lazymatch x with
  | context [match _ with _ => _ end] => fail
  | _ => idtac
  end.

Ltac branch :=
  match goal with
  | |- context [match ?x with inl _ => _ | inr _ => _ end] =>
      plain x; destruct x eqn:?
  | |- context [match ?x with Some _ => _ | None => _ end] =>
      plain x; destruct x eqn:?
  | |- context [if ?x then _ else _] => plain x; destruct x eqn:?
  end; cbn [app].

(** Use the recorded answers in the hypotheses. *)
Ltac recall :=
  repeat match goal with
  | H : ?x = _, H' : context [?x] |- _ => rewrite H in H'
  end.

(** Case analysis on which event of a concrete trace [H] is about. *)
Ltac pick_event H :=
  repeat (apply elem_of_cons in H as [-> | H]);
  try (apply elem_of_nil in H; contradiction).

(** ** Addresses *)

Lemma all_bytes_Forall (p : ascii -> bool) (s : string) :
  all_bytes p s = true <-> Forall (fun c => p c = true) (chars s).
Proof.
  induction s as [|c s IH]; simpl.
  - split; [constructor | reflexivity].
  - rewrite andb_true_iff, Forall_cons, IH. reflexivity.
Qed.

Lemma isHexCharacter_spec (c : ascii) :
  common.isHexCharacter c = true <-> hex_digit c.
Proof.
  unfold hex_digit. split.
  - destruct c as [[] [] [] [] [] [] [] []]; intros H;
      try discriminate H; clear H; apply list_elem_of_In; simpl; tauto.
  - intros H. cbn in H. pick_event H; reflexivity.
Qed.

Lemma length_chars (s : string) : length (chars s) = String.length s.
Proof. induction s; simpl; congruence. Qed.

Lemma isHex_spec (body : string) :
  String.length body = 40%nat ->
  common.isHex body = true <-> Forall hex_digit (chars body).
Proof.
  intros Hlen. unfold common.isHex. rewrite Hlen. simpl.
  rewrite all_bytes_Forall. apply Forall_proper; [|reflexivity].
  intros c. apply isHexCharacter_spec.
Qed.

Lemma has0xPrefix_spec (s : string) :
  common.has0xPrefix s = true <->
  exists body, s = ("0x" +:+ body)%string \/ s = ("0X" +:+ body)%string.
Proof.
  split.
  - destruct s as [|c0 [|c1 body]]; simpl; try discriminate.
    rewrite andb_true_iff, orb_true_iff, !Ascii.eqb_eq.
    intros [-> [-> | ->]]; exists body; auto.
  - intros [body [-> | ->]]; reflexivity.
Qed.

Lemma hex_digit_first_no_prefix (body : string) :
  Forall hex_digit (chars body) -> common.has0xPrefix body = false.
Proof.
  intros H. destruct (common.has0xPrefix body) eqn:E; [|reflexivity].
  apply has0xPrefix_spec in E as [rest [-> | ->]]; simpl in H;
    apply Forall_cons in H as [_ H]; apply Forall_cons in H as [H _];
    apply isHexCharacter_spec in H; discriminate H.
Qed.

Lemma IsHexAddress_spec (s : string) :
  common.IsHexAddress s = true <-> hex_address_syntax s.
Proof.
  unfold common.IsHexAddress, hex_address_syntax. split.
  - destruct (common.has0xPrefix s) eqn:E.
    + apply has0xPrefix_spec in E as [body E].
      assert (drop_str 2 s = body) as -> by (destruct E as [-> | ->]; reflexivity).
      rewrite andb_true_iff, Nat.eqb_eq. intros [Hlen Hhex].
      exists body. rewrite <- isHex_spec by exact Hlen. tauto.
    + rewrite andb_true_iff, Nat.eqb_eq. intros [Hlen Hhex].
      exists s. rewrite <- isHex_spec by exact Hlen. tauto.
  - intros (body & Hs & Hlen & Hhex).
    pose proof (hex_digit_first_no_prefix _ Hhex) as Hno.
    apply isHex_spec in Hhex; [|exact Hlen].
    destruct Hs as [-> | [-> | ->]]; cbv zeta.
    + rewrite Hno, Hlen, Hhex. reflexivity.
    + change ("0x" +:+ body) with (String "0" (String "x" body)).
      cbn [common.has0xPrefix Ascii.eqb Bool.eqb andb orb drop_str].
      rewrite Hlen, Hhex. reflexivity.
    + change ("0X" +:+ body) with (String "0" (String "X" body)).
      cbn [common.has0xPrefix Ascii.eqb Bool.eqb andb orb drop_str].
      rewrite Hlen, Hhex. reflexivity.
Qed.



(** ** Failures of the ledger *)

(** C1. Whenever a ledger call made by [SendTokens] (the pending-nonce
    fetch, the gas-price fetch, the gas estimate or the submission) is
    answered with an error, [SendTokens] returns an error that ends with the
    message of the node, and the cooldown table is the one before the call. *)
Theorem SendTokens_ledger_failure (lib : crypto.Lib) (w : World)
    (toAddress : string) (m : Machine) (ev : Event) (err : string) :
  ev ∈ trace_of (run (SendTokens lib w toAddress) m) ->
  call_error w ev = Some err ->
  result_of (run (SendTokens lib w toAddress) m)
  = inr (failure_prefix ev +:+ err)
  /\ usedAddresses (fc (store_of (run (SendTokens lib w toAddress) m)))
     = usedAddresses (fc m).
Proof.
  unfold_run. repeat branch; intros Hin Herr; pick_event Hin;
    cbn [call_error] in Herr; recall; try discriminate Herr;
    injection Herr as <-; split; reflexivity.
Qed.

Lemma SendTokens_ledger_failure_witness :
  let ev := CallSendTransaction (client Demo.faucet) context.Background
              (signed_transfer_of Demo.faucet Demo.alice 7 1000000000 21000
                 {| crypto.sig_r := 1; crypto.sig_s := 2; crypto.sig_v := 0 |}) in
  ev ∈ trace_of (run (SendTokens Demo.lib Demo.broke Demo.alice) Demo.fresh)
  /\ call_error Demo.broke ev = Some "insufficient funds"%string
  /\ result_of (run (SendTokens Demo.lib Demo.broke Demo.alice) Demo.fresh)
     = inr "failed to send transaction: insufficient funds"%string
  /\ usedAddresses (fc (store_of (run (SendTokens Demo.lib Demo.broke Demo.alice) Demo.fresh)))
     = usedAddresses (fc Demo.fresh).
Proof.
  intros ev.
  assert (ev ∈ trace_of (run (SendTokens Demo.lib Demo.broke Demo.alice) Demo.fresh)) as Hin.
  { apply list_elem_of_In. vm_compute. tauto. }
  assert (call_error Demo.broke ev = Some "insufficient funds"%string) as Herr
    by reflexivity.
  split; [exact Hin | split; [exact Herr |]].
  exact (SendTokens_ledger_failure Demo.lib Demo.broke Demo.alice Demo.fresh
           ev _ Hin Herr).
Defined.

(** ** What a request leaves alone *)

(** C9. A call to [SendTokens], successful or not, leaves the entry of
    every other key of the cooldown table as it was, and leaves the
    configuration of the faucet (client, private key, from-address, chain
    identity, amount, cooldown duration) as it was. *)
Theorem SendTokens_frame (lib : crypto.Lib) (w : World)
    (toAddress other : string) (m : Machine) :
  other <> toAddress ->
  usedAddresses (fc (store_of (run (SendTokens lib w toAddress) m))) !! other
  = usedAddresses (fc m) !! other
  /\ same_config (fc (store_of (run (SendTokens lib w toAddress) m))) (fc m).
Proof.
  intros Hne. unfold same_config. unfold_run.
  repeat branch; cbn [fc usedAddresses client privateKey fromAddress chainID
                      amount cooldown];
    rewrite ?lookup_insert_ne by congruence; repeat split; reflexivity.
Qed.

Lemma SendTokens_frame_witness :
  Demo.alice <> Demo.bob
  /\ usedAddresses (fc (store_of (run (SendTokens Demo.lib Demo.world Demo.bob) Demo.served)))
       !! Demo.alice
     = usedAddresses (fc Demo.served) !! Demo.alice
  /\ same_config (fc (store_of (run (SendTokens Demo.lib Demo.world Demo.bob) Demo.served)))
       (fc Demo.served).
Proof.
  assert (Demo.alice <> Demo.bob) as Hne by discriminate.
  split; [exact Hne |].
  exact (SendTokens_frame Demo.lib Demo.world Demo.bob Demo.alice Demo.served Hne).
Defined.

(** ** Contexts of the ledger calls *)

(** C7, as stated, fails: the calls of a request and of the balance query
    run under [context.Background()], which is not bounded. *)
Lemma ledger_calls_deadline_counterexample :
  forallb under_deadline
    (trace_of (run (SendTokens Demo.lib Demo.world Demo.alice) Demo.fresh)) = false
  /\ forallb under_deadline
       (trace_of (run (GetBalance Demo.world) Demo.fresh)) = false.
Proof. split; vm_compute; reflexivity. Qed.

(** C7, amended. Every call that [SendTokens] and [GetBalance] make to the
    ledger client is made under [context.Background()], which has no
    deadline and is never cancelled; [GetBalance] makes exactly one call. *)
Theorem ledger_calls_background (lib : crypto.Lib) (w : World)
    (toAddress : string) (m : Machine) :
  Forall under_background (trace_of (run (SendTokens lib w toAddress) m))
  /\ trace_of (run (GetBalance w) m)
     = [CallBalanceAt (client (fc m)) context.Background (fromAddress (fc m)) None]
  /\ context.Deadline context.Background = None
  /\ context.cancellable context.Background = false.
Proof.
  split; [|split; [|split; reflexivity]].
  - unfold_run. repeat branch; repeat constructor.
  - unfold_run. branch; reflexivity.
Qed.

(** ** The key of the cooldown table *)

(** C2 fails on the code: the table is keyed by the request string as it
    was sent.  [Demo.alice] and [Demo.ALICE] differ only in letter case and
    denote one account; twenty minutes after a disbursement to the first,
    with one hour of cooldown, a request under the first spelling is refused
    and a request under the second is served. *)
Lemma cooldown_key_is_case_sensitive :
  same_modulo_case Demo.alice Demo.ALICE
  /\ common.HexToAddress Demo.alice = common.HexToAddress Demo.ALICE
  /\ usedAddresses (fc Demo.served) !! Demo.alice = Some 0
  /\ clock Demo.world (ticks Demo.served) - 0 < cooldown (fc Demo.served)
  /\ result_of (run (SendTokens Demo.lib Demo.world Demo.alice) Demo.served)
     = inr ("address " +:+ Demo.alice +:+ " can request again in 20m0s")
  /\ result_of (run (SendTokens Demo.lib Demo.world Demo.ALICE) Demo.served)
     = inl (signed_transfer_of Demo.faucet Demo.ALICE 7 1000000000 21000
              {| crypto.sig_r := 1; crypto.sig_s := 2; crypto.sig_v := 0 |})
  /\ usedAddresses
       (fc (store_of (run (SendTokens Demo.lib Demo.world Demo.ALICE) Demo.served)))
       !! Demo.ALICE = Some (clock Demo.world 1).
Proof. repeat split; vm_compute; reflexivity. Qed.

(** ** Durations *)

Lemma Sub_exact (t u : time.Time) :
  is_int64 (t - u) -> time.Sub t u = t - u.
Proof.
  unfold is_int64, time.Sub, time.maxDuration, time.minDuration. intros H.
  destruct (Z.ltb_spec maxInt64 (t - u)); [lia|].
  destruct (Z.ltb_spec (t - u) minInt64); [lia|reflexivity].
Qed.

Lemma Sub_ge (t u : time.Time) (d : time.Duration) :
  is_int64 d -> d <= t - u -> d <= time.Sub t u.
Proof.
  unfold is_int64, time.Sub, time.maxDuration, time.minDuration. intros H Hd.
  destruct (Z.ltb_spec maxInt64 (t - u)); [lia|].
  destruct (Z.ltb_spec (t - u) minInt64); lia.
Qed.

Lemma lessThanHalf_spec (r : Z) :
  0 <= r < time.Minute ->
  time.lessThanHalf r time.Minute = (r + r <? time.Minute).
Proof.
  unfold time.lessThanHalf. intros H.
  assert (time.Minute = 60000000000) as Hm by reflexivity.
  rewrite (wrapU64_id r), (wrapU64_id (r + r)), (wrapU64_id time.Minute)
    by (unfold maxUint64; lia).
  reflexivity.
Qed.

(** [Round] to the minute is exact as long as the neighbouring multiples
    of a minute fit a [Duration]. *)
Lemma Round_Minute_nearest (d : time.Duration) :
  Z.abs d <= maxInt64 - time.Minute ->
  nearest_multiple time.Minute d (time.Round d time.Minute).
Proof.
  intros Hd. unfold nearest_multiple, time.Round.
  assert (time.Minute = 60000000000) as Hm by reflexivity.
  assert (maxInt64 = 9223372036854775807) as Hmax by reflexivity.
  assert (minInt64 = -9223372036854775808) as Hmin by reflexivity.
  destruct (Z.leb_spec time.Minute 0) as [?|_]; [lia|].
  pose proof (Z.quot_rem' d time.Minute) as Hqr.
  pose proof (Z.rem_bound_pos_neg d time.Minute) as Hrn.
  pose proof (Z.rem_bound_pos d time.Minute) as Hrp.
  generalize dependent (Z.rem d time.Minute).
  generalize dependent (d ÷ time.Minute). intros q r Hqr Hrn Hrp.
  destruct (Z.ltb_spec d 0) as [Hneg|Hpos].
  - assert (- time.Minute < r <= 0) as Hr.
    { lia. }
    rewrite (wrap64_id (- r)) by (unfold is_int64; lia).
    rewrite lessThanHalf_spec by lia.
    destruct (Z.ltb_spec (- r + - r) time.Minute) as [Hhalf|Hhalf].
    + rewrite wrap64_id by (unfold is_int64; lia).
      split; [exists q; lia | lia].
    + rewrite (wrap64_id (d - time.Minute)) by (unfold is_int64; lia).
      rewrite wrap64_id by (unfold is_int64; lia).
      destruct (Z.ltb_spec (d - time.Minute + - r) d); [|lia].
      split; [exists (q - 1); lia | lia].
  - assert (0 <= r < time.Minute) as Hr.
    { lia. }
    rewrite lessThanHalf_spec by lia.
    destruct (Z.ltb_spec (r + r) time.Minute) as [Hhalf|Hhalf].
    + rewrite wrap64_id by (unfold is_int64; lia).
      split; [exists q; lia | lia].
    + rewrite (wrap64_id (d + time.Minute)) by (unfold is_int64; lia).
      rewrite wrap64_id by (unfold is_int64; lia).
      destruct (Z.ltb_spec d (d + time.Minute - r)); [|lia].
      split; [exists (q + 1); lia | lia].
Qed.

(** ** The cooldown *)

(** What [SendTokens] does when the cooldown is active. *)
Lemma SendTokens_blocked (lib : crypto.Lib) (w : World) (toAddress : string)
    (m : Machine) (lastUsed : time.Time) :
  common.IsHexAddress toAddress = true ->
  usedAddresses (fc m) !! toAddress = Some lastUsed ->
  time.Sub (clock w (ticks m)) lastUsed < cooldown (fc m) ->
  run (SendTokens lib w toAddress) m
  = (inr ("address " +:+ toAddress +:+ " can request again in "
          +:+ time.String_
                (time.Round
                   (wrap64 (cooldown (fc m)
                            - time.Sub (clock w (S (ticks m))) lastUsed))
                   time.Minute)),
     {| fc := fc m; ticks := S (S (ticks m)) |},
     [TableRead toAddress]).
Proof.
  intros Hvalid Hused Hlt. apply Z.ltb_lt in Hlt.
  unfold_run. rewrite Hvalid. cbv beta iota delta [negb].
  rewrite Hused. cbv beta iota. rewrite Hlt. reflexivity.
Qed.

(** C3. A request for an address whose recorded timestamp is less than the
    cooldown in the past fails with the cooldown message, which carries the
    remaining wait (the cooldown less the time elapsed at the second reading
    of the clock) rounded to the nearest minute; the run reads the table
    once, makes no ledger call, and leaves the faucet, so the recorded
    timestamp, as it was. *)
Theorem SendTokens_cooldown_active (lib : crypto.Lib) (w : World)
    (toAddress : string) (m : Machine) (lastUsed : time.Time) :
  hex_address_syntax toAddress ->
  usedAddresses (fc m) !! toAddress = Some lastUsed ->
  lastUsed <= clock w (ticks m) <= clock w (S (ticks m)) ->
  clock w (ticks m) - lastUsed < cooldown (fc m) ->
  cooldown (fc m) <= maxInt64 - time.Minute ->
  clock w (S (ticks m)) - lastUsed <= maxInt64 - time.Minute ->
  exists wait : time.Duration,
    nearest_multiple time.Minute
      (cooldown (fc m) - (clock w (S (ticks m)) - lastUsed)) wait
    /\ result_of (run (SendTokens lib w toAddress) m)
       = inr ("address " +:+ toAddress +:+ " can request again in "
              +:+ time.String_ wait)
    /\ trace_of (run (SendTokens lib w toAddress) m) = [TableRead toAddress]
    /\ Forall (fun ev => is_ledger_call ev = false)
         (trace_of (run (SendTokens lib w toAddress) m))
    /\ fc (store_of (run (SendTokens lib w toAddress) m)) = fc m
    /\ usedAddresses (fc (store_of (run (SendTokens lib w toAddress) m)))
         !! toAddress = Some lastUsed.
Proof.
  intros Hvalid Hused Hclock Hlt Hcd Hel.
  apply IsHexAddress_spec in Hvalid.
  assert (time.Minute = 60000000000) as Hm by reflexivity.
  assert (maxInt64 = 9223372036854775807) as Hmax by reflexivity.
  assert (minInt64 = -9223372036854775808) as Hmin by reflexivity.
  rewrite (SendTokens_blocked lib w toAddress m lastUsed Hvalid Hused);
    [|rewrite Sub_exact by (unfold is_int64; lia); exact Hlt].
  rewrite Sub_exact by (unfold is_int64; lia).
  rewrite wrap64_id by (unfold is_int64; lia).
  eexists. split; [apply Round_Minute_nearest; lia|].
  cbn [result_of trace_of store_of fst snd fc].
  repeat split; auto.
Qed.

Ltac by_computation :=
  vm_compute; repeat split; first [reflexivity | intro; discriminate].

Lemma SendTokens_cooldown_active_witness :
  hex_address_syntax Demo.alice
  /\ usedAddresses (fc Demo.served) !! Demo.alice = Some 0
  /\ 0 <= clock Demo.world (ticks Demo.served)
          <= clock Demo.world (S (ticks Demo.served))
  /\ clock Demo.world (ticks Demo.served) - 0 < cooldown (fc Demo.served)
  /\ cooldown (fc Demo.served) <= maxInt64 - time.Minute
  /\ clock Demo.world (S (ticks Demo.served)) - 0 <= maxInt64 - time.Minute
  /\ exists wait : time.Duration,
       nearest_multiple time.Minute
         (cooldown (fc Demo.served)
          - (clock Demo.world (S (ticks Demo.served)) - 0)) wait
       /\ result_of (run (SendTokens Demo.lib Demo.world Demo.alice) Demo.served)
          = inr ("address " +:+ Demo.alice +:+ " can request again in "
                 +:+ time.String_ wait)
       /\ trace_of (run (SendTokens Demo.lib Demo.world Demo.alice) Demo.served)
          = [TableRead Demo.alice]
       /\ Forall (fun ev => is_ledger_call ev = false)
            (trace_of (run (SendTokens Demo.lib Demo.world Demo.alice) Demo.served))
       /\ fc (store_of (run (SendTokens Demo.lib Demo.world Demo.alice) Demo.served))
          = fc Demo.served
       /\ usedAddresses
            (fc (store_of (run (SendTokens Demo.lib Demo.world Demo.alice) Demo.served)))
            !! Demo.alice = Some 0.
Proof.
  assert (hex_address_syntax Demo.alice) as H1
    by (apply IsHexAddress_spec; reflexivity).
  assert (usedAddresses (fc Demo.served) !! Demo.alice = Some 0) as H2
    by (vm_compute; reflexivity).
  assert (0 <= clock Demo.world (ticks Demo.served)
            <= clock Demo.world (S (ticks Demo.served))) as H3
    by by_computation.
  assert (clock Demo.world (ticks Demo.served) - 0 < cooldown (fc Demo.served))
    as H4 by by_computation.
  assert (cooldown (fc Demo.served) <= maxInt64 - time.Minute) as H5
    by by_computation.
  assert (clock Demo.world (S (ticks Demo.served)) - 0 <= maxInt64 - time.Minute)
    as H6 by by_computation.
  repeat (split; [assumption|]).
  exact (SendTokens_cooldown_active Demo.lib Demo.world Demo.alice Demo.served 0
           H1 H2 H3 H4 H5 H6).
Defined.

Lemma SignTx_ok (lib : crypto.Lib) (tx : types.Transaction)
    (s : types.EIP155Signer) (prv : crypto.PrivateKey) (sig : crypto.Signature) :
  crypto.Sign lib (crypto.rlpHash lib (types.sigFields s tx)) prv = inl sig ->
  types.SignTx lib tx s prv = inl (types.WithSignature tx s sig).
Proof. intros H. unfold types.SignTx. rewrite H. reflexivity. Qed.

Lemma SignTx_total (lib : crypto.Lib) (tx : types.Transaction)
    (s : types.EIP155Signer) (prv : crypto.PrivateKey) :
  (forall h, exists sig, crypto.Sign lib h prv = inl sig) ->
  exists stx, types.SignTx lib tx s prv = inl stx.
Proof.
  intros H. destruct (H (crypto.rlpHash lib (types.sigFields s tx))) as [sig Hs].
  eexists. apply SignTx_ok, Hs.
Qed.

Ltac all_events H :=
  repeat match type of H with
  | Forall _ (_ :: _) => let H' := fresh in apply Forall_cons in H as [H' H]
  end.

(** C4. A request for an address whose recorded timestamp is at least the
    cooldown in the past is accepted when every ledger call it makes
    succeeds (and the key signs): [SendTokens] returns the signed
    transaction, the table holds for the address the reading of the clock
    taken after the submission, and the handler answers 200 with the hash of
    that transaction. *)
Theorem SendTokens_after_expiry (lib : crypto.Lib) (w : World)
    (toAddress : string) (m : Machine) (lastUsed : time.Time) :
  hex_address_syntax toAddress ->
  usedAddresses (fc m) !! toAddress = Some lastUsed ->
  is_int64 (cooldown (fc m)) ->
  lastUsed + cooldown (fc m) <= clock w (ticks m) ->
  Forall (fun ev => call_error w ev = None)
    (trace_of (run (SendTokens lib w toAddress) m)) ->
  (forall h, exists sig, crypto.Sign lib h (privateKey (fc m)) = inl sig) ->
  exists tx : types.Transaction,
    result_of (run (SendTokens lib w toAddress) m) = inl tx
    /\ usedAddresses (fc (store_of (run (SendTokens lib w toAddress) m)))
       = <[toAddress := clock w (S (ticks m))]> (usedAddresses (fc m))
    /\ result_of (run (handleRequest lib w (Some {| Address := toAddress |})) m)
       = inl (200, {| Success := true;
                      Message := "Tokens sent successfully!";
                      TxHash := Hash_Hex (types.Hash_ lib tx) |}).
Proof.
  intros Hvalid Hused Hcd Hexp Hcalls Hsign.
  apply IsHexAddress_spec in Hvalid.
  assert ((time.Sub (clock w (ticks m)) lastUsed <? cooldown (fc m)) = false)
    as Hge by (apply Z.ltb_ge, Sub_ge; [exact Hcd | lia]).
  revert Hcalls. unfold_run. cbn [Address].
  rewrite Hvalid. cbv beta iota delta [negb].
  rewrite Hused. cbv beta iota. rewrite Hge. cbv beta iota.
  repeat branch; intros Hcalls; all_events Hcalls;
    cbn [call_error] in *; recall; try discriminate.
  - eexists. repeat split; reflexivity.
  - match goal with
    | H : types.SignTx _ ?tx ?s _ = inr _ |- _ =>
        destruct (SignTx_total lib tx s _ Hsign) as [stx Hs];
        rewrite Hs in H; discriminate H
    end.
Qed.

Lemma SendTokens_after_expiry_witness :
  hex_address_syntax Demo.alice
  /\ usedAddresses (fc Demo.later) !! Demo.alice = Some 0
  /\ is_int64 (cooldown (fc Demo.later))
  /\ 0 + cooldown (fc Demo.later) <= clock Demo.world (ticks Demo.later)
  /\ Forall (fun ev => call_error Demo.world ev = None)
       (trace_of (run (SendTokens Demo.lib Demo.world Demo.alice) Demo.later))
  /\ (forall h, exists sig,
        crypto.Sign Demo.lib h (privateKey (fc Demo.later)) = inl sig)
  /\ exists tx : types.Transaction,
       result_of (run (SendTokens Demo.lib Demo.world Demo.alice) Demo.later) = inl tx
       /\ usedAddresses
            (fc (store_of (run (SendTokens Demo.lib Demo.world Demo.alice) Demo.later)))
          = <[Demo.alice := clock Demo.world (S (ticks Demo.later))]>
              (usedAddresses (fc Demo.later))
       /\ result_of
            (run (handleRequest Demo.lib Demo.world
                    (Some {| Address := Demo.alice |})) Demo.later)
          = inl (200, {| Success := true;
                         Message := "Tokens sent successfully!";
                         TxHash := Hash_Hex (types.Hash_ Demo.lib tx) |}).
Proof.
  assert (hex_address_syntax Demo.alice) as H1
    by (apply IsHexAddress_spec; reflexivity).
  assert (usedAddresses (fc Demo.later) !! Demo.alice = Some 0) as H2
    by (vm_compute; reflexivity).
  assert (is_int64 (cooldown (fc Demo.later))) as H3 by by_computation.
  assert (0 + cooldown (fc Demo.later) <= clock Demo.world (ticks Demo.later)) as H4
    by by_computation.
  assert (Forall (fun ev => call_error Demo.world ev = None)
            (trace_of (run (SendTokens Demo.lib Demo.world Demo.alice) Demo.later)))
    as H5 by (vm_compute; repeat constructor).
  assert (forall h, exists sig,
            crypto.Sign Demo.lib h (privateKey (fc Demo.later)) = inl sig) as H6
    by (intros h; eexists; reflexivity).
  repeat (split; [assumption|]).
  exact (SendTokens_after_expiry Demo.lib Demo.world Demo.alice Demo.later 0
           H1 H2 H3 H4 H5 H6).
Defined.

(** ** The transaction *)

(** The chain identity of a faucet is the one its node answered at start-up,
    and the cooldown table starts empty. *)
Lemma NewFaucet_chain_identity (lib : crypto.Lib) (w : World) (f : Faucet) :
  result_of (run (NewFaucet lib w) tt) = inl f ->
  ChainID w (client f) context.Background = inl (chainID f)
  /\ usedAddresses f = ∅.
Proof.
  unfold_run. repeat branch; intros H; try discriminate H.
  all: injection H as <-; split; [assumption | reflexivity].
Qed.

(** C6. For an eligible address, once the three fetches have answered and
    the key has signed, [SendTokens] submits one transaction: its nonce is
    the pending nonce of the faucet account, its gas price the suggested
    one, its gas limit the estimate for the transfer from the faucet address
    to the recipient with the configured amount as value, its value that
    amount; the signature is over these fields together with the chain
    identity, which [V] encodes as well (EIP-155).  If [SendTokens] returns
    a transaction, it is this one. *)
Theorem SendTokens_transaction (lib : crypto.Lib) (w : World)
    (toAddress : string) (m : Machine) (nonce gasPrice gas : Z)
    (sig : crypto.Signature) :
  hex_address_syntax toAddress ->
  eligible w m toAddress ->
  PendingNonceAt w (client (fc m)) context.Background (fromAddress (fc m))
  = inl nonce ->
  SuggestGasPrice w (client (fc m)) context.Background = inl gasPrice ->
  EstimateGas w (client (fc m)) context.Background
    {| ethclient.From := fromAddress (fc m);
       ethclient.To := Some (common.HexToAddress toAddress);
       ethclient.Gas := 0; ethclient.GasPrice := None;
       ethclient.Value := Some (amount (fc m)); ethclient.Data := [] |}
  = inl gas ->
  crypto.Sign lib
    (crypto.rlpHash lib
       [crypto.IUint nonce; crypto.IBig gasPrice; crypto.IUint gas;
        crypto.IAddr (Some (common.HexToAddress toAddress));
        crypto.IBig (amount (fc m)); crypto.IBytes [];
        crypto.IBig (chainID (fc m)); crypto.IUint 0; crypto.IUint 0])
    (privateKey (fc m))
  = inl sig ->
  let stx :=
    {| types.Nonce := nonce; types.GasPrice := gasPrice; types.Gas := gas;
       types.To := Some (common.HexToAddress toAddress);
       types.Value := amount (fc m); types.Data := [];
       types.V := if chainID (fc m) =? 0 then crypto.sig_v sig + 27
                  else crypto.sig_v sig + 35 + chainID (fc m) * 2;
       types.R := crypto.sig_r sig; types.S := crypto.sig_s sig |} in
  (exists rest : list Event,
     trace_of (run (SendTokens lib w toAddress) m)
     = [TableRead toAddress;
        CallPendingNonceAt (client (fc m)) context.Background (fromAddress (fc m));
        CallSuggestGasPrice (client (fc m)) context.Background;
        CallEstimateGas (client (fc m)) context.Background
          {| ethclient.From := fromAddress (fc m);
             ethclient.To := Some (common.HexToAddress toAddress);
             ethclient.Gas := 0; ethclient.GasPrice := None;
             ethclient.Value := Some (amount (fc m)); ethclient.Data := [] |};
        CallSendTransaction (client (fc m)) context.Background stx] ++ rest)
  /\ (SendTransaction w (client (fc m)) context.Background stx = None ->
      result_of (run (SendTokens lib w toAddress) m) = inl stx)
  /\ (forall tx, result_of (run (SendTokens lib w toAddress) m) = inl tx ->
      tx = stx).
Proof.
  intros Hvalid Helig Hnonce Hprice Hgas Hsig stx.
  apply IsHexAddress_spec in Hvalid.
  apply SignTx_ok
    with (tx := types.NewTransaction nonce (common.HexToAddress toAddress)
                  (amount (fc m)) gas gasPrice [])
         (s := types.NewEIP155Signer (chainID (fc m))) in Hsig.
  change (types.WithSignature _ _ sig) with stx in Hsig.
  unfold eligible in Helig. unfold_run.
  rewrite Hvalid. cbv beta iota delta [negb].
  destruct (usedAddresses (fc m) !! toAddress) as [lastUsed|]; cbv beta iota.
  - apply Z.ltb_ge in Helig. rewrite Helig. cbv beta iota.
    rewrite Hnonce, Hprice, Hgas, Hsig. cbn [app].
    destruct (SendTransaction w (client (fc m)) context.Background stx);
      cbn [app]; (split; [eexists; reflexivity|]); split; congruence.
  - rewrite Hnonce, Hprice, Hgas, Hsig. cbn [app].
    destruct (SendTransaction w (client (fc m)) context.Background stx);
      cbn [app]; (split; [eexists; reflexivity|]); split; congruence.
Qed.

(** ** Decimal integers *)

Lemma is_digit_spec (c : ascii) :
  in_range "0" "9" c = true <-> decimal_digit c.
Proof.
  unfold decimal_digit. split.
  - destruct c as [[] [] [] [] [] [] [] []]; intros H;
      try discriminate H; clear H; apply list_elem_of_In; simpl; tauto.
  - intros H. cbn in H. pick_event H; reflexivity.
Qed.

Lemma digit_not_sign (c : ascii) :
  in_range "0" "9" c = true ->
  Ascii.eqb c "+" = false /\ Ascii.eqb c "-" = false.
Proof.
  destruct c as [[] [] [] [] [] [] [] []]; intros H;
    try discriminate H; split; reflexivity.
Qed.

Lemma digit_char (d : Z) :
  0 <= d <= 9 ->
  in_range "0" "9" (char_of (d + 48)) = true
  /\ byte_of (char_of (d + 48)) - 48 = d.
Proof.
  intros H. rewrite in_range_spec, byte_of_char_of by lia.
  change (byte_of "0") with 48. change (byte_of "9") with 57. lia.
Qed.

Lemma scan_digits_spec (s : string) (acc : Z) :
  is_Some (big.scan_digits acc s) <-> Forall decimal_digit (chars s).
Proof.
  revert acc. induction s as [|c s IH]; intros acc; simpl.
  - split; [constructor | eauto].
  - rewrite Forall_cons, <- is_digit_spec.
    destruct (in_range "0" "9" c).
    + rewrite IH. tauto.
    + split; [intros [? H]; discriminate H | intros [H _]; discriminate H].
Qed.

Lemma parseUint_loop_digits (s : string) (n v : Z) :
  strconv.parseUint_loop n s = inl v -> Forall decimal_digit (chars s).
Proof.
  revert n. induction s as [|c s IH]; intros n; simpl.
  - constructor.
  - destruct (in_range "0" "9" c) eqn:E; [|discriminate].
    apply is_digit_spec in E.
    repeat match goal with
    | |- context [if ?b then _ else _] => destruct b
    end; try discriminate.
    intros H. constructor; [exact E | exact (IH _ H)].
Qed.

Lemma signed_decimal_intro (c : ascii) (s : string) (neg : bool) (ds : string) :
  (if Ascii.eqb c "+" then (false, s)
   else if Ascii.eqb c "-" then (true, s)
   else (false, String c s)) = (neg, ds) ->
  ds <> EmptyString -> Forall decimal_digit (chars ds) ->
  signed_decimal (String c s).
Proof.
  intros Hsign Hne Hds.
  destruct (Ascii.eqb_spec c "+") as [-> | _].
  - injection Hsign as <- <-. exists "+"%string, s. repeat split; auto.
  - destruct (Ascii.eqb_spec c "-") as [-> | _].
    + injection Hsign as <- <-. exists "-"%string, s. repeat split; auto.
    + injection Hsign as <- <-. exists ""%string, (String c s).
      repeat split; auto.
Qed.

Lemma SetString_spec (s : string) :
  is_Some (big.SetString s) <-> signed_decimal s.
Proof.
  split.
  - destruct s as [|c s]; [intros [? H]; discriminate H|].
    unfold big.SetString.
    destruct (if Ascii.eqb c "+" then (false, s)
              else if Ascii.eqb c "-" then (true, s)
              else (false, String c s)) as [neg ds] eqn:Hsign.
    intros Hsome. apply (signed_decimal_intro c s neg ds Hsign).
    + destruct ds; [destruct Hsome as [? H]; discriminate H | discriminate].
    + apply (scan_digits_spec ds 0).
      destruct ds; [destruct Hsome as [? H]; discriminate H|].
      destruct (big.scan_digits 0 (String a ds)); [eauto|].
      destruct Hsome as [? H]; discriminate H.
  - intros (sign & ds & -> & Hsign & Hne & Hds).
    apply (scan_digits_spec ds 0) in Hds as [v Hv].
    destruct ds as [|c ds]; [congruence|].
    destruct Hsign as [-> | [-> | ->]]; cbn [String.append] .
    + assert (in_range "0" "9" c = true) as Hc.
      { simpl in Hv. destruct (in_range "0" "9" c); [reflexivity|discriminate]. }
      apply digit_not_sign in Hc as [Hp Hm].
      change ("" +:+ String c ds)%string with (String c ds).
      unfold big.SetString. rewrite Hp, Hm, Hv. eauto.
    + change ("+" +:+ String c ds)%string with (String "+" (String c ds)).
      unfold big.SetString. cbn [Ascii.eqb Bool.eqb]. rewrite Hv. eauto.
    + change ("-" +:+ String c ds)%string with (String "-" (String c ds)).
      unfold big.SetString. cbn [Ascii.eqb Bool.eqb]. rewrite Hv. eauto.
Qed.

Lemma Atoi_syntax (s : string) (z : Z) :
  strconv.Atoi s = inl z -> signed_decimal s.
Proof.
  unfold strconv.Atoi, strconv.ParseInt.
  destruct s as [|c s]; [discriminate|].
  destruct (if Ascii.eqb c "+" then (false, s)
            else if Ascii.eqb c "-" then (true, s)
            else (false, String c s)) as [neg ds] eqn:Hsign.
  unfold strconv.ParseUint.
  destruct ds as [|c' ds'] eqn:Eds; [discriminate|].
  destruct (strconv.parseUint_loop 0 (String c' ds')) as [un|[]] eqn:Hloop;
    try discriminate.
  intros _. apply (signed_decimal_intro c s neg (String c' ds') Hsign).
  - discriminate.
  - exact (parseUint_loop_digits _ _ _ Hloop).
Qed.

(** ** [Atoi] reads back what [Itoa] writes *)

Lemma parseUint_loop_step (n d : Z) (acc : string) :
  0 <= n -> 0 <= d <= 9 -> n * 10 + d <= maxUint64 ->
  strconv.parseUint_loop n (String (char_of (d + 48)) acc)
  = strconv.parseUint_loop (n * 10 + d) acc.
Proof.
  intros Hn Hd Hmax. cbn [strconv.parseUint_loop].
  destruct (digit_char d Hd) as [-> ->].
  assert (maxUint64 = 18446744073709551615) as Hm by reflexivity.
  assert (maxUint64 / 10 + 1 = 1844674407370955162) as -> by reflexivity.
  destruct (Z.leb_spec 1844674407370955162 n); [lia|].
  rewrite (wrapU64_id (n * 10)) by lia.
  rewrite (wrapU64_id (n * 10 + d)) by lia.
  destruct (Z.ltb_spec (n * 10 + d) (n * 10)); [lia|].
  destruct (Z.ltb_spec maxUint64 (n * 10 + d)); [lia|].
  reflexivity.
Qed.

Lemma digits_loop_parse (fuel : nat) (v : Z) :
  0 <= v < 10 ^ Z.of_nat fuel ->
  exists k : nat,
    forall (n : Z) (acc : string),
      0 <= n -> n * 10 ^ Z.of_nat k + v <= maxUint64 ->
      strconv.parseUint_loop n (strconv.digits_loop fuel v acc)
      = strconv.parseUint_loop (n * 10 ^ Z.of_nat k + v) acc.
Proof.
  revert v. induction fuel as [|fuel IH]; intros v Hv.
  - exists 0%nat. intros n acc _ _. cbn [strconv.digits_loop].
    f_equal. change (10 ^ Z.of_nat 0) with 1 in *. lia.
  - cbn [strconv.digits_loop]. destruct (Z.leb_spec v 0) as [Hz|Hpos].
    + exists 0%nat. intros n acc _ _. f_equal.
      change (10 ^ Z.of_nat 0) with 1. lia.
    + rewrite Nat2Z.inj_succ, Z.pow_succ_r in Hv by lia.
      destruct (IH (v / 10)) as [k Hk].
      { split; [apply Z.div_pos; lia | apply Z.div_lt_upper_bound; lia]. }
      exists (S k). intros n acc Hn Hmax.
      rewrite Nat2Z.inj_succ, Z.pow_succ_r in * by lia.
      pose proof (Z.div_mod v 10 ltac:(lia)) as Hdm.
      pose proof (Z.mod_pos_bound v 10 ltac:(lia)) as Hmod.
      assert (0 < 10 ^ Z.of_nat k) as Hp by (apply Z.pow_pos_nonneg; lia).
      assert (0 <= n * 10 ^ Z.of_nat k) as Hnp by (apply Z.mul_nonneg_nonneg; lia).
      rewrite Hk by lia.
      rewrite parseUint_loop_step by lia.
      f_equal. lia.
Qed.

Lemma digits_loop_after_digit (fuel : nat) (v : Z) (c : ascii) (acc : string) :
  in_range "0" "9" c = true ->
  exists c' rest,
    strconv.digits_loop fuel v (String c acc) = String c' rest
    /\ in_range "0" "9" c' = true.
Proof.
  revert v c acc. induction fuel as [|fuel IH]; intros v c acc Hc;
    cbn [strconv.digits_loop]; [eauto|].
  destruct (Z.leb_spec v 0); [eauto|].
  apply IH, digit_char. pose proof (Z.mod_pos_bound v 10); lia.
Qed.

Lemma digits_loop_S (fuel : nat) (v : Z) (acc : string) :
  strconv.digits_loop (S fuel) v acc
  = if v <=? 0 then acc
    else strconv.digits_loop fuel (v / 10) (String (char_of (v mod 10 + 48)) acc).
Proof. reflexivity. Qed.

Lemma fmtUint_first (v : Z) :
  0 <= v ->
  exists c rest,
    strconv.fmtUint v EmptyString = String c rest /\ in_range "0" "9" c = true.
Proof.
  intros Hv. unfold strconv.fmtUint. destruct (Z.eqb_spec v 0); [eauto|].
  rewrite (digits_loop_S 19).
  destruct (Z.leb_spec v 0); [lia|].
  apply digits_loop_after_digit, digit_char.
  pose proof (Z.mod_pos_bound v 10); lia.
Qed.

Lemma ParseUint_fmtUint (v : Z) :
  0 <= v <= maxUint64 ->
  strconv.ParseUint (strconv.fmtUint v EmptyString) = inl v.
Proof.
  intros Hv. destruct (fmtUint_first v) as (c & rest & Hfirst & _); [lia|].
  unfold strconv.ParseUint. rewrite Hfirst, <- Hfirst.
  unfold strconv.fmtUint. destruct (Z.eqb_spec v 0) as [-> | Hne]; [reflexivity|].
  destruct (digits_loop_parse 20 v) as [k Hk].
  { unfold maxUint64 in Hv. lia. }
  rewrite Hk by lia. reflexivity.
Qed.

Lemma Atoi_Itoa (h : Z) : is_int64 h -> strconv.Atoi (strconv.Itoa h) = inl h.
Proof.
  unfold is_int64, minInt64, maxInt64. intros Hh.
  unfold strconv.Atoi, strconv.Itoa.
  destruct (Z.ltb_spec h 0) as [Hneg|Hpos].
  - rewrite (wrapU64_id (- h)) by (unfold maxUint64; lia).
    unfold strconv.ParseInt. cbn [Ascii.eqb Bool.eqb].
    rewrite ParseUint_fmtUint by (unfold maxUint64; lia).
    cbn [negb andb]. change (2 ^ 63) with 9223372036854775808.
    destruct (Z.ltb_spec 9223372036854775808 (- h)); [lia|].
    f_equal. destruct (Z.eq_dec h (-9223372036854775808)) as [-> | Hne];
      [reflexivity|].
    rewrite (wrap64_id (- h)) by (unfold is_int64, minInt64, maxInt64; lia).
    rewrite wrap64_id by (unfold is_int64, minInt64, maxInt64; lia). lia.
  - destruct (fmtUint_first h Hpos) as (c & rest & Hfirst & Hc).
    apply digit_not_sign in Hc as [Hp Hm].
    unfold strconv.ParseInt. rewrite Hfirst, Hp, Hm, <- Hfirst.
    rewrite ParseUint_fmtUint by (unfold maxUint64; lia).
    cbn [negb andb]. change (2 ^ 63) with 9223372036854775808.
    destruct (Z.leb_spec 9223372036854775808 h); [lia|].
    f_equal. apply wrap64_id. unfold is_int64, minInt64, maxInt64; lia.
Qed.

Lemma Itoa_nonempty (h : Z) : is_int64 h -> strconv.Itoa h <> EmptyString.
Proof.
  intros Hh. unfold strconv.Itoa. destruct (h <? 0) eqn:E; [discriminate|].
  apply Z.ltb_ge in E. destruct (fmtUint_first h E) as (c & rest & -> & _).
  discriminate.
Qed.

(** ** Start-up *)

Lemma eqb_empty (s : string) : s <> EmptyString -> String.eqb s "" = false.
Proof. destruct s; [congruence | reflexivity]. Qed.

Lemma Sub_nonneg (t u : time.Time) : u <= t -> 0 <= time.Sub t u.
Proof.
  intros H. apply Sub_ge; [|lia].
  unfold is_int64, minInt64, maxInt64. lia.
Qed.

(** C10. [NewFaucet] accepts every value of Go's [int] as the number of
    cooldown hours, zero and the negative ones included: if start-up
    succeeds at all, it succeeds with [COOLDOWN_HOURS] set to the decimal
    text of any such [h], and the cooldown is [h] hours (in [int64]
    arithmetic).  With a cooldown that is not positive, a request for a
    valid address whose recorded timestamp, if any, is a past reading of the
    clock passes the eligibility check and goes on to the nonce fetch. *)
Theorem NewFaucet_cooldown_hours_unchecked (lib : crypto.Lib) (w : World) :
  (forall (f0 : Faucet) (h : Z),
     result_of (run (NewFaucet lib w) tt) = inl f0 ->
     is_int64 h ->
     result_of (run (NewFaucet lib (setenv w "COOLDOWN_HOURS" (strconv.Itoa h))) tt)
     = inl (with_cooldown f0 (wrap64 (h * time.Hour))))
  /\ (forall (toAddress : string) (m : Machine),
        hex_address_syntax toAddress ->
        cooldown (fc m) <= 0 ->
        (forall lastUsed, usedAddresses (fc m) !! toAddress = Some lastUsed ->
                          lastUsed <= clock w (ticks m)) ->
        eligible w m toAddress
        /\ exists rest : list Event,
             trace_of (run (SendTokens lib w toAddress) m)
             = TableRead toAddress
               :: CallPendingNonceAt (client (fc m)) context.Background
                    (fromAddress (fc m))
               :: rest).
Proof.
  split.
  - intros f0 h Hok Hh. revert Hok. unfold_run.
    cbn [setenv Getenv Dial ChainID]. cbn [String.eqb Ascii.eqb Bool.eqb].
    rewrite (eqb_empty _ (Itoa_nonempty h Hh)), (Atoi_Itoa h Hh).
    repeat branch; intros Hok; try discriminate Hok.
    all: injection Hok as <-; reflexivity.
  - intros toAddress m Hvalid Hcd Hpast.
    apply IsHexAddress_spec in Hvalid.
    unfold eligible. unfold_run. rewrite Hvalid. cbv beta iota delta [negb].
    destruct (usedAddresses (fc m) !! toAddress) as [lastUsed|]; cbv beta iota.
    + pose proof (Sub_nonneg _ _ (Hpast lastUsed eq_refl)) as Hnn.
      destruct (Z.ltb_spec (time.Sub (clock w (ticks m)) lastUsed) (cooldown (fc m)));
        [lia|].
      split; [lia|]. repeat branch; eexists; reflexivity.
    + split; [exact I|]. repeat branch; eexists; reflexivity.
Qed.

Lemma minus_five_not_unsigned : ~ unsigned_decimal "-5".
Proof.
  intros [_ H]. apply Forall_cons in H as [H _].
  apply is_digit_spec in H. discriminate H.
Qed.

(** C8, as stated, fails: the amount ["-5"] is not a base-10 unsigned
    integer, and [NewFaucet] accepts it, with the amount minus five. *)
Lemma NewFaucet_unsigned_amount_counterexample :
  ~ unsigned_decimal (Getenv (setenv Demo.world "FAUCET_AMOUNT" "-5") "FAUCET_AMOUNT")
  /\ result_of (run (NewFaucet Demo.lib (setenv Demo.world "FAUCET_AMOUNT" "-5")) tt)
     = inl (with_amount Demo.faucet (-5)).
Proof. split; [exact minus_five_not_unsigned | vm_compute; reflexivity]. Qed.

(** C8, amended. The disbursement amount is a signed integer of arbitrary
    size: [NewFaucet] succeeds only if the amount string is empty (the
    default of 10^18 applies) or is a base-10 signed integer (an optional
    sign, then decimal digits), whose value becomes the amount; it returns an
    error when the amount string or the cooldown string is not empty and not
    a base-10 signed integer; and where start-up succeeds, it succeeds with
    any amount string that [SetString] parses, a negative one included. *)
Theorem NewFaucet_amount_syntax (lib : crypto.Lib) (w : World) :
  (forall f : Faucet,
     result_of (run (NewFaucet lib w) tt) = inl f ->
     (Getenv w "FAUCET_AMOUNT" = ""%string /\ amount f = 10 ^ 18)
     \/ (signed_decimal (Getenv w "FAUCET_AMOUNT")
         /\ big.SetString (Getenv w "FAUCET_AMOUNT") = Some (amount f)))
  /\ (Getenv w "FAUCET_AMOUNT" <> ""%string ->
      ~ signed_decimal (Getenv w "FAUCET_AMOUNT") ->
      exists msg, result_of (run (NewFaucet lib w) tt) = inr msg)
  /\ (Getenv w "COOLDOWN_HOURS" <> ""%string ->
      ~ signed_decimal (Getenv w "COOLDOWN_HOURS") ->
      exists msg, result_of (run (NewFaucet lib w) tt) = inr msg)
  /\ (forall (f0 : Faucet) (s : string) (z : Z),
        result_of (run (NewFaucet lib w) tt) = inl f0 ->
        big.SetString s = Some z ->
        result_of (run (NewFaucet lib (setenv w "FAUCET_AMOUNT" s)) tt)
        = inl (with_amount f0 z)).
Proof.
  split; [|split; [|split]].
  - intros f. unfold_run. repeat branch; intros Hok; try discriminate Hok.
    all: injection Hok as <-; cbn [amount].
    all: match goal with
         | H : (Getenv _ "FAUCET_AMOUNT" =? "")%string = true,
           H' : big.SetString _ = Some _ |- _ =>
             apply String.eqb_eq in H; left; split; [exact H|];
             vm_compute in H'; injection H' as <-; reflexivity
         | H : (Getenv _ "FAUCET_AMOUNT" =? "")%string = false,
           H' : big.SetString _ = Some _ |- _ =>
             right; split;
             [apply SetString_spec; eauto | first [exact H' | reflexivity]]
         end.
  - intros Hne Hbad. apply eqb_empty in Hne.
    assert (big.SetString (Getenv w "FAUCET_AMOUNT") = None) as Hnone.
    { destruct (big.SetString _) eqn:E; [|reflexivity].
      exfalso. apply Hbad, SetString_spec. eauto. }
    unfold_run. rewrite Hne, Hnone. repeat branch; eauto.
  - intros Hne Hbad. apply eqb_empty in Hne.
    assert (exists e, strconv.Atoi (Getenv w "COOLDOWN_HOURS") = inr e) as [e He].
    { destruct (strconv.Atoi _) eqn:E; [|eauto].
      exfalso. eapply Hbad, Atoi_syntax, E. }
    unfold_run. rewrite Hne, He. repeat branch; eauto.
  - intros f0 s z Hok Hs. revert Hok. unfold_run.
    cbn [setenv Getenv Dial ChainID]. cbn [String.eqb Ascii.eqb Bool.eqb].
    assert ((s =? "")%string = false) as ->.
    { destruct s; [discriminate Hs | reflexivity]. }
    rewrite Hs. repeat branch; intros Hok; try discriminate Hok.
    all: injection Hok as <-; reflexivity.
Qed.

Lemma SendTokens_transaction_witness :
  let f := fc Demo.fresh in
  let sig := {| crypto.sig_r := 1; crypto.sig_s := 2; crypto.sig_v := 0 |} in
  let msg :=
    {| ethclient.From := fromAddress f;
       ethclient.To := Some (common.HexToAddress Demo.alice);
       ethclient.Gas := 0; ethclient.GasPrice := None;
       ethclient.Value := Some (amount f); ethclient.Data := [] |} in
  let stx :=
    {| types.Nonce := 7; types.GasPrice := 1000000000; types.Gas := 21000;
       types.To := Some (common.HexToAddress Demo.alice);
       types.Value := amount f; types.Data := [];
       types.V := 0 + 35 + 1337 * 2; types.R := 1; types.S := 2 |} in
  hex_address_syntax Demo.alice
  /\ eligible Demo.world Demo.fresh Demo.alice
  /\ PendingNonceAt Demo.world (client f) context.Background (fromAddress f) = inl 7
  /\ SuggestGasPrice Demo.world (client f) context.Background = inl 1000000000
  /\ EstimateGas Demo.world (client f) context.Background msg = inl 21000
  /\ (exists rest : list Event,
        trace_of (run (SendTokens Demo.lib Demo.world Demo.alice) Demo.fresh)
        = [TableRead Demo.alice;
           CallPendingNonceAt (client f) context.Background (fromAddress f);
           CallSuggestGasPrice (client f) context.Background;
           CallEstimateGas (client f) context.Background msg;
           CallSendTransaction (client f) context.Background stx] ++ rest)
  /\ result_of (run (SendTokens Demo.lib Demo.world Demo.alice) Demo.fresh)
     = inl stx.
Proof.
  intros f sig msg stx.
  assert (hex_address_syntax Demo.alice) as H1
    by (apply IsHexAddress_spec; reflexivity).
  assert (eligible Demo.world Demo.fresh Demo.alice) as H2 by exact I.
  destruct (SendTokens_transaction Demo.lib Demo.world Demo.alice Demo.fresh
              7 1000000000 21000 sig H1 H2 eq_refl eq_refl eq_refl eq_refl)
    as (Htrace & Hok & _).
  split; [exact H1|]. split; [exact H2|].
  do 3 (split; [reflexivity|]).
  split; [exact Htrace | exact (Hok eq_refl)].
Defined.

Lemma NewFaucet_amount_syntax_witness :
  (signed_decimal "-5"
   /\ big.SetString "-5" = Some (-5))
  /\ (~ signed_decimal "1e18"
      /\ exists msg,
           result_of (run (NewFaucet Demo.lib (setenv Demo.world "FAUCET_AMOUNT" "1e18")) tt)
           = inr msg)
  /\ (~ signed_decimal "a day"
      /\ exists msg,
           result_of (run (NewFaucet Demo.lib (setenv Demo.world "COOLDOWN_HOURS" "a day")) tt)
           = inr msg)
  /\ result_of (run (NewFaucet Demo.lib (setenv Demo.world "FAUCET_AMOUNT" "-5")) tt)
     = inl (with_amount Demo.faucet (-5)).
Proof.
  assert (~ signed_decimal "1e18") as Hbad1.
  { intros H. apply SetString_spec in H as [z H]. discriminate H. }
  assert (~ signed_decimal "a day") as Hbad2.
  { intros H. apply SetString_spec in H as [z H]. discriminate H. }
  destruct (NewFaucet_amount_syntax Demo.lib (setenv Demo.world "FAUCET_AMOUNT" "-5"))
    as (Hneg & _ & _ & _).
  destruct (NewFaucet_amount_syntax Demo.lib (setenv Demo.world "FAUCET_AMOUNT" "1e18"))
    as (_ & Hamount & _ & _).
  destruct (NewFaucet_amount_syntax Demo.lib (setenv Demo.world "COOLDOWN_HOURS" "a day"))
    as (_ & _ & Hhours & _).
  destruct (NewFaucet_amount_syntax Demo.lib Demo.world) as (_ & _ & _ & Hany).
  split; [|split; [|split]].
  - destruct (Hneg (with_amount Demo.faucet (-5)) eq_refl) as [[H _] | H];
      [discriminate H | exact H].
  - split; [exact Hbad1 | apply Hamount; [discriminate | exact Hbad1]].
  - split; [exact Hbad2 | apply Hhours; [discriminate | exact Hbad2]].
  - exact (Hany Demo.faucet "-5"%string (-5) eq_refl eq_refl).
Defined.

Lemma NewFaucet_cooldown_hours_unchecked_witness :
  (result_of (run (NewFaucet Demo.lib Demo.world) tt) = inl Demo.faucet
   /\ is_int64 (-3)
   /\ result_of
        (run (NewFaucet Demo.lib
                (setenv Demo.world "COOLDOWN_HOURS" (strconv.Itoa (-3)))) tt)
      = inl (with_cooldown Demo.faucet (wrap64 (-3 * time.Hour))))
  /\ (hex_address_syntax Demo.alice
      /\ cooldown (fc Demo.lenient) <= 0
      /\ usedAddresses (fc Demo.lenient) !! Demo.alice = Some 0
      /\ 0 <= clock Demo.world (ticks Demo.lenient)
      /\ eligible Demo.world Demo.lenient Demo.alice
      /\ exists rest : list Event,
           trace_of (run (SendTokens Demo.lib Demo.world Demo.alice) Demo.lenient)
           = TableRead Demo.alice
             :: CallPendingNonceAt (client (fc Demo.lenient)) context.Background
                  (fromAddress (fc Demo.lenient))
             :: rest).
Proof.
  destruct (NewFaucet_cooldown_hours_unchecked Demo.lib Demo.world)
    as (Hhours & Hpass).
  assert (is_int64 (-3)) as Hint by by_computation.
  assert (hex_address_syntax Demo.alice) as Hvalid
    by (apply IsHexAddress_spec; reflexivity).
  assert (cooldown (fc Demo.lenient) <= 0) as Hcd by by_computation.
  assert (usedAddresses (fc Demo.lenient) !! Demo.alice = Some 0) as Hused
    by (vm_compute; reflexivity).
  assert (0 <= clock Demo.world (ticks Demo.lenient)) as Hclock by by_computation.
  split.
  - split; [reflexivity | split; [exact Hint |]].
    exact (Hhours Demo.faucet (-3) eq_refl Hint).
  - repeat (split; [assumption|]).
    apply (Hpass Demo.alice Demo.lenient Hvalid Hcd).
    intros lastUsed H. rewrite Hused in H. injection H as <-. exact Hclock.
Defined.

(** * Further properties of the code *)

(** ** [NewFaucet] *)

(** What a successful start-up was built from. *)
Lemma NewFaucet_ok_inv (lib : crypto.Lib) (w : World) (f : Faucet) :
  result_of (run (NewFaucet lib w) tt) = inl f ->
  Dial w (getenv_or w "RPC_URL" "http://localhost:8545") = inl (client f)
  /\ Getenv w "PRIVATE_KEY" <> ""%string
  /\ crypto.HexToECDSA lib (Getenv w "PRIVATE_KEY") = inl (privateKey f)
  /\ fromAddress f = crypto.PubkeyToAddress lib (crypto.Public lib (privateKey f))
  /\ ChainID w (client f) context.Background = inl (chainID f)
  /\ big.SetString (getenv_or w "FAUCET_AMOUNT" "1000000000000000000")
     = Some (amount f)
  /\ (exists h : Z,
        strconv.Atoi (getenv_or w "COOLDOWN_HOURS" "24") = inl h
        /\ cooldown f = wrap64 (h * time.Hour))
  /\ usedAddresses f = ∅
  /\ trace_of (run (NewFaucet lib w) tt)
     = [CallChainID (client f) context.Background].
Proof.
  unfold getenv_or. unfold_run.
  destruct (Getenv w "PRIVATE_KEY" =? "")%string eqn:Hkey.
  - repeat branch; intros H; discriminate H.
  - apply String.eqb_neq in Hkey.
    repeat branch; intros H; try discriminate H.
    all: injection H as <-; cbn [client privateKey fromAddress chainID amount
                                   usedAddresses cooldown].
    all: repeat split; try assumption; try reflexivity; eauto.
Qed.

(** X3. [NewFaucet] succeeds with the faucet [f] exactly when the dial of
    [RPC_URL] (or of its default) gave the client of [f], [PRIVATE_KEY] is
    set and decodes to the key of [f], the node answered the chain
    identity of [f], the amount string (or its default) parses to the amount
    of [f] and the cooldown string (or its default) to a number of hours;
    the from-address is derived from the key and the cooldown table is
    empty. *)
Theorem NewFaucet_success_iff (lib : crypto.Lib) (w : World) (f : Faucet) :
  result_of (run (NewFaucet lib w) tt) = inl f
  <-> Dial w (getenv_or w "RPC_URL" "http://localhost:8545") = inl (client f)
      /\ Getenv w "PRIVATE_KEY" <> ""%string
      /\ crypto.HexToECDSA lib (Getenv w "PRIVATE_KEY") = inl (privateKey f)
      /\ fromAddress f
         = crypto.PubkeyToAddress lib (crypto.Public lib (privateKey f))
      /\ ChainID w (client f) context.Background = inl (chainID f)
      /\ big.SetString (getenv_or w "FAUCET_AMOUNT" "1000000000000000000")
         = Some (amount f)
      /\ (exists h : Z,
            strconv.Atoi (getenv_or w "COOLDOWN_HOURS" "24") = inl h
            /\ cooldown f = wrap64 (h * time.Hour))
      /\ usedAddresses f = ∅.
Proof.
  split.
  - intros H. apply NewFaucet_ok_inv in H. tauto.
  - intros (Hdial & Hkey & Hecdsa & Hfrom & Hchain & Hamount & (h & Hh & Hcd) & Htable).
    apply String.eqb_neq in Hkey.
    unfold getenv_or in *. unfold_run.
    rewrite Hdial. cbv beta iota. rewrite Hkey, Hecdsa. cbv beta iota.
    rewrite Hchain. cbn [app]. rewrite Hamount, Hh.
    destruct f; cbn in *. subst. reflexivity.
Qed.

Lemma NewFaucet_success_iff_witness :
  result_of (run (NewFaucet Demo.lib Demo.world) tt) = inl Demo.faucet.
Proof.
  apply (NewFaucet_success_iff Demo.lib Demo.world Demo.faucet).
  repeat split; try reflexivity; try discriminate.
  exists 1. split; reflexivity.
Defined.

(** X1. When the dial of [RPC_URL] (of [http://localhost:8545] if it is
    unset) fails, [NewFaucet] returns "failed to connect to Ethereum
    network: " and the error, whatever the rest of the configuration, and
    contacts no node. *)
Theorem NewFaucet_dial_failure (lib : crypto.Lib) (w : World) (err : string) :
  Dial w (getenv_or w "RPC_URL" "http://localhost:8545") = inr err ->
  run (NewFaucet lib w) tt
  = (inr ("failed to connect to Ethereum network: " +:+ err), tt, []).
Proof.
  unfold getenv_or. intros H. unfold_run. rewrite H. reflexivity.
Qed.

(** X2. With the node reachable and [PRIVATE_KEY] unset, [NewFaucet] returns
    "PRIVATE_KEY environment variable is required" before it decodes any key
    or asks the node for anything. *)
Theorem NewFaucet_missing_key (lib : crypto.Lib) (w : World)
    (c : ethclient.Client) :
  Dial w (getenv_or w "RPC_URL" "http://localhost:8545") = inl c ->
  Getenv w "PRIVATE_KEY" = ""%string ->
  run (NewFaucet lib w) tt
  = (inr "PRIVATE_KEY environment variable is required"%string, tt, []).
Proof.
  unfold getenv_or. intros Hdial Hkey. unfold_run.
  rewrite Hdial, Hkey. reflexivity.
Qed.

(** X4. With [RPC_URL], [FAUCET_AMOUNT] and [COOLDOWN_HOURS] unset, a
    faucet that starts is connected to [http://localhost:8545], sends 10^18
    wei per request and has a cooldown of 24 hours. *)
Theorem NewFaucet_defaults (lib : crypto.Lib) (w : World) (f : Faucet) :
  Getenv w "RPC_URL" = ""%string ->
  Getenv w "FAUCET_AMOUNT" = ""%string ->
  Getenv w "COOLDOWN_HOURS" = ""%string ->
  result_of (run (NewFaucet lib w) tt) = inl f ->
  Dial w "http://localhost:8545" = inl (client f)
  /\ amount f = 1000000000000000000
  /\ cooldown f = 24 * time.Hour.
Proof.
  intros Hurl Hamount Hcd Hok.
  apply NewFaucet_ok_inv in Hok
    as (Hdial & _ & _ & _ & _ & Ha & (h & Hh & Hc) & _).
  unfold getenv_or in *. rewrite Hurl in Hdial. rewrite Hamount in Ha.
  rewrite Hcd in Hh. cbn [String.eqb] in *.
  split; [exact Hdial|]. split.
  - change (big.SetString "1000000000000000000")
      with (Some 1000000000000000000) in Ha.
    congruence.
  - change (strconv.Atoi "24") with (@inl Z strconv.NumError 24) in Hh.
    injection Hh as <-. rewrite Hc. reflexivity.
Qed.


(** ** [SendTokens] *)

Lemma SignTx_inv (lib : crypto.Lib) (tx stx : types.Transaction)
    (s : types.EIP155Signer) (prv : crypto.PrivateKey) :
  types.SignTx lib tx s prv = inl stx ->
  exists sig, crypto.Sign lib (crypto.rlpHash lib (types.sigFields s tx)) prv = inl sig
              /\ stx = types.WithSignature tx s sig.
Proof.
  unfold types.SignTx. destruct (crypto.Sign _ _ _) as [sig|e]; [|discriminate].
  intros H. injection H as <-. eauto.
Qed.

(** What a successful request went through. *)
Lemma SendTokens_ok_inv (lib : crypto.Lib) (w : World) (toAddress : string)
    (m : Machine) (tx : types.Transaction) :
  result_of (run (SendTokens lib w toAddress) m) = inl tx ->
  let f := fc m in
  let now := clock w (ticks m + check_reads m toAddress) in
  let msg :=
    {| ethclient.From := fromAddress f;
       ethclient.To := Some (common.HexToAddress toAddress);
       ethclient.Gas := 0; ethclient.GasPrice := None;
       ethclient.Value := Some (amount f); ethclient.Data := [] |} in
  common.IsHexAddress toAddress = true
  /\ eligible w m toAddress
  /\ (exists sig,
        crypto.Sign lib
          (crypto.rlpHash lib
             [crypto.IUint (types.Nonce tx); crypto.IBig (types.GasPrice tx);
              crypto.IUint (types.Gas tx);
              crypto.IAddr (Some (common.HexToAddress toAddress));
              crypto.IBig (amount f); crypto.IBytes [];
              crypto.IBig (chainID f); crypto.IUint 0; crypto.IUint 0])
          (privateKey f) = inl sig
        /\ tx = signed_transfer_of f toAddress (types.Nonce tx)
                  (types.GasPrice tx) (types.Gas tx) sig)
  /\ PendingNonceAt w (client f) context.Background (fromAddress f)
     = inl (types.Nonce tx)
  /\ SuggestGasPrice w (client f) context.Background = inl (types.GasPrice tx)
  /\ EstimateGas w (client f) context.Background msg = inl (types.Gas tx)
  /\ SendTransaction w (client f) context.Background tx = None
  /\ store_of (run (SendTokens lib w toAddress) m)
     = {| fc := record_used f toAddress now;
          ticks := S (ticks m + check_reads m toAddress) |}
  /\ trace_of (run (SendTokens lib w toAddress) m)
     = [TableRead toAddress;
        CallPendingNonceAt (client f) context.Background (fromAddress f);
        CallSuggestGasPrice (client f) context.Background;
        CallEstimateGas (client f) context.Background msg;
        CallSendTransaction (client f) context.Background tx;
        TableWrite toAddress now].
Proof.
  unfold eligible, check_reads, record_used. unfold_run.
  destruct (common.IsHexAddress toAddress); cbv beta iota delta [negb];
    [|discriminate].
  destruct (usedAddresses (fc m) !! toAddress) as [lastUsed|]; cbv beta iota.
  - destruct (Z.ltb_spec (time.Sub (clock w (ticks m)) lastUsed) (cooldown (fc m)))
      as [Hlt|Hge]; cbv beta iota; [discriminate|].
    repeat branch; intros H; try discriminate H.
    injection H as <-.
    match goal with
    | H : types.SignTx _ _ _ _ = inl _ |- _ =>
        apply SignTx_inv in H as (sig & Hsig & ->)
    end.
    rewrite Nat.add_1_r.
    repeat split; try assumption; try reflexivity; eauto.
  - repeat branch; intros H; try discriminate H.
    injection H as <-.
    match goal with
    | H : types.SignTx _ _ _ _ = inl _ |- _ =>
        apply SignTx_inv in H as (sig & Hsig & ->)
    end.
    rewrite Nat.add_0_r.
    repeat split; try assumption; try reflexivity; eauto.
Qed.

(** X6. A request that ends in an error, whichever it is, leaves the whole
    faucet as it was, writes nothing to the cooldown table, and no
    submission it made was accepted by the node. *)
Theorem SendTokens_error_no_effect (lib : crypto.Lib) (w : World)
    (toAddress : string) (m : Machine) (msg : string) :
  result_of (run (SendTokens lib w toAddress) m) = inr msg ->
  fc (store_of (run (SendTokens lib w toAddress) m)) = fc m
  /\ Forall (fun ev => is_table_write ev = false
                       /\ forall c ctx tx, ev = CallSendTransaction c ctx tx ->
                                           SendTransaction w c ctx tx <> None)
       (trace_of (run (SendTokens lib w toAddress) m)).
Proof.
  unfold_run. repeat branch; intros H; try discriminate H.
  all: split; [reflexivity|].
  all: repeat (apply Forall_cons; split;
               [split; [reflexivity
                       | intros c ctx tx Hev;
                         first [discriminate Hev
                               | injection Hev as <- <- <-; congruence]]|]);
       apply Forall_nil; exact I.
Qed.

(** X7. [SendTokens] returns a transaction exactly when it submitted that
    transaction and the node accepted it; the cooldown table is then written
    once, after the submission, for the request string and with the reading
    of the clock taken at that point. *)
Theorem SendTokens_success_iff_accepted (lib : crypto.Lib) (w : World)
    (toAddress : string) (m : Machine) (tx : types.Transaction) :
  (result_of (run (SendTokens lib w toAddress) m) = inl tx
   <-> CallSendTransaction (client (fc m)) context.Background tx
         ∈ trace_of (run (SendTokens lib w toAddress) m)
       /\ SendTransaction w (client (fc m)) context.Background tx = None)
  /\ (result_of (run (SendTokens lib w toAddress) m) = inl tx ->
      exists calls,
        trace_of (run (SendTokens lib w toAddress) m)
        = calls
          ++ [CallSendTransaction (client (fc m)) context.Background tx;
              TableWrite toAddress
                (clock w (ticks m + check_reads m toAddress))]
        /\ Forall (fun ev => is_table_write ev = false) calls
        /\ usedAddresses (fc (store_of (run (SendTokens lib w toAddress) m)))
           = <[toAddress := clock w (ticks m + check_reads m toAddress)]>
               (usedAddresses (fc m))).
Proof.
  split; [split|].
  - intros H. apply SendTokens_ok_inv in H
      as (_ & _ & _ & _ & _ & _ & Hacc & _ & ->).
    split; [|exact Hacc].
    apply list_elem_of_In. simpl. tauto.
  - unfold_run. repeat branch; intros [Hin Hacc].
    all: repeat (apply elem_of_cons in Hin as [Heq | Hin];
                 [first [discriminate Heq
                        | injection Heq as <-; first [reflexivity | congruence]]|]).
    all: apply elem_of_nil in Hin; contradiction.
  - intros H. apply SendTokens_ok_inv in H
      as (_ & _ & _ & _ & _ & _ & _ & -> & ->).
    eexists [_; _; _; _]. split; [reflexivity|].
    split; [repeat constructor | reflexivity].
Qed.


Lemma SignTx_err (lib : crypto.Lib) (tx : types.Transaction)
    (s : types.EIP155Signer) (prv : crypto.PrivateKey) (err : string) :
  crypto.Sign lib (crypto.rlpHash lib (types.sigFields s tx)) prv = inr err ->
  types.SignTx lib tx s prv = inr err.
Proof. intros H. unfold types.SignTx. rewrite H. reflexivity. Qed.

(** X8. When the key cannot sign, an eligible request whose three fetches
    were answered fails with "failed to sign transaction: " and the error;
    nothing is submitted and the faucet is as it was. *)
Theorem SendTokens_signing_failure (lib : crypto.Lib) (w : World)
    (toAddress : string) (m : Machine) (nonce gasPrice gas : Z) (err : string) :
  common.IsHexAddress toAddress = true ->
  eligible w m toAddress ->
  PendingNonceAt w (client (fc m)) context.Background (fromAddress (fc m))
  = inl nonce ->
  SuggestGasPrice w (client (fc m)) context.Background = inl gasPrice ->
  EstimateGas w (client (fc m)) context.Background
    {| ethclient.From := fromAddress (fc m);
       ethclient.To := Some (common.HexToAddress toAddress);
       ethclient.Gas := 0; ethclient.GasPrice := None;
       ethclient.Value := Some (amount (fc m)); ethclient.Data := [] |}
  = inl gas ->
  crypto.Sign lib
    (crypto.rlpHash lib
       [crypto.IUint nonce; crypto.IBig gasPrice; crypto.IUint gas;
        crypto.IAddr (Some (common.HexToAddress toAddress));
        crypto.IBig (amount (fc m)); crypto.IBytes [];
        crypto.IBig (chainID (fc m)); crypto.IUint 0; crypto.IUint 0])
    (privateKey (fc m))
  = inr err ->
  result_of (run (SendTokens lib w toAddress) m)
  = inr ("failed to sign transaction: " +:+ err)
  /\ fc (store_of (run (SendTokens lib w toAddress) m)) = fc m
  /\ trace_of (run (SendTokens lib w toAddress) m)
     = [TableRead toAddress;
        CallPendingNonceAt (client (fc m)) context.Background (fromAddress (fc m));
        CallSuggestGasPrice (client (fc m)) context.Background;
        CallEstimateGas (client (fc m)) context.Background
          {| ethclient.From := fromAddress (fc m);
             ethclient.To := Some (common.HexToAddress toAddress);
             ethclient.Gas := 0; ethclient.GasPrice := None;
             ethclient.Value := Some (amount (fc m)); ethclient.Data := [] |}].
Proof.
  intros Hvalid Helig Hnonce Hprice Hgas Hsig.
  apply SignTx_err
    with (tx := types.NewTransaction nonce (common.HexToAddress toAddress)
                  (amount (fc m)) gas gasPrice [])
         (s := types.NewEIP155Signer (chainID (fc m))) in Hsig.
  rename Hsig into Hsign.
  unfold eligible in Helig. unfold_run.
  rewrite Hvalid. cbv beta iota delta [negb].
  destruct (usedAddresses (fc m) !! toAddress) as [lastUsed|]; cbv beta iota.
  - apply Z.ltb_ge in Helig. rewrite Helig. cbv beta iota.
    rewrite Hnonce, Hprice, Hgas, Hsign. repeat split; reflexivity.
  - rewrite Hnonce, Hprice, Hgas, Hsign. repeat split; reflexivity.
Qed.

(** X9. A valid address that has no entry in the cooldown table is served
    whatever the cooldown is (when the ledger calls succeed and the key
    signs): the clock is not read for the check, and the entry recorded is
    the single reading the request takes. *)
Theorem SendTokens_first_request (lib : crypto.Lib) (w : World)
    (toAddress : string) (m : Machine) :
  common.IsHexAddress toAddress = true ->
  usedAddresses (fc m) !! toAddress = None ->
  Forall (fun ev => call_error w ev = None)
    (trace_of (run (SendTokens lib w toAddress) m)) ->
  (forall h, exists sig, crypto.Sign lib h (privateKey (fc m)) = inl sig) ->
  exists tx : types.Transaction,
    result_of (run (SendTokens lib w toAddress) m) = inl tx
    /\ store_of (run (SendTokens lib w toAddress) m)
       = {| fc := record_used (fc m) toAddress (clock w (ticks m));
            ticks := S (ticks m) |}.
Proof.
  intros Hvalid Hnone Hcalls Hsign. revert Hcalls. unfold_run.
  rewrite Hvalid. cbv beta iota delta [negb]. rewrite Hnone. cbv beta iota.
  repeat branch; intros Hcalls; all_events Hcalls;
    cbn [call_error] in *; recall; try discriminate.
  - eexists. split; reflexivity.
  - match goal with
    | H : types.SignTx _ ?tx ?s _ = inr _ |- _ =>
        destruct (SignTx_total lib tx s _ Hsign) as [stx Hs];
        rewrite Hs in H; discriminate H
    end.
Qed.

(** X10. After a successful request, a further request for the same string
    whose first clock reading is less than the cooldown after the recorded
    one is refused with the cooldown message, whatever the node would
    answer: it makes no ledger call and leaves the faucet as the first
    request left it. *)
Theorem SendTokens_repeat_refused (lib : crypto.Lib) (w w' : World)
    (toAddress : string) (m : Machine) (tx : types.Transaction) :
  result_of (run (SendTokens lib w toAddress) m) = inl tx ->
  let m1 := store_of (run (SendTokens lib w toAddress) m) in
  let recorded := clock w (ticks m + check_reads m toAddress) in
  time.Sub (clock w' (ticks m1)) recorded < cooldown (fc m) ->
  usedAddresses (fc m1) !! toAddress = Some recorded
  /\ run (SendTokens lib w' toAddress) m1
     = (inr ("address " +:+ toAddress +:+ " can request again in "
             +:+ time.String_
                   (time.Round
                      (wrap64 (cooldown (fc m)
                               - time.Sub (clock w' (S (ticks m1))) recorded))
                      time.Minute)),
        {| fc := fc m1; ticks := S (S (ticks m1)) |},
        [TableRead toAddress]).
Proof.
  intros Hok m1 recorded Hlt.
  pose proof (SendTokens_ok_inv _ _ _ _ _ Hok)
    as (Hvalid & _ & _ & _ & _ & _ & _ & Hstore & _).
  assert (usedAddresses (fc m1) !! toAddress = Some recorded) as Hused.
  { subst m1. rewrite Hstore. cbn [fc record_used usedAddresses].
    apply lookup_insert_eq. }
  assert (cooldown (fc m1) = cooldown (fc m)) as Hcd.
  { subst m1. rewrite Hstore. reflexivity. }
  split; [exact Hused|].
  rewrite <- Hcd in *.
  exact (SendTokens_blocked lib w' toAddress m1 recorded Hvalid Hused Hlt).
Qed.


(** X12. Whatever [SendTokens] returns pays the configured amount to the
    address the request string decodes to, with no data; its nonce, gas
    price and gas limit are the answers of the node, and its signature is
    the key's over those fields and the chain identity of the faucet. *)
Theorem SendTokens_returned_transaction (lib : crypto.Lib) (w : World)
    (toAddress : string) (m : Machine) (tx : types.Transaction) :
  result_of (run (SendTokens lib w toAddress) m) = inl tx ->
  types.To tx = Some (common.HexToAddress toAddress)
  /\ types.Value tx = amount (fc m)
  /\ types.Data tx = []
  /\ PendingNonceAt w (client (fc m)) context.Background (fromAddress (fc m))
     = inl (types.Nonce tx)
  /\ SuggestGasPrice w (client (fc m)) context.Background
     = inl (types.GasPrice tx)
  /\ EstimateGas w (client (fc m)) context.Background
       {| ethclient.From := fromAddress (fc m);
          ethclient.To := Some (common.HexToAddress toAddress);
          ethclient.Gas := 0; ethclient.GasPrice := None;
          ethclient.Value := Some (amount (fc m)); ethclient.Data := [] |}
     = inl (types.Gas tx)
  /\ exists sig : crypto.Signature,
       crypto.Sign lib
         (crypto.rlpHash lib
            [crypto.IUint (types.Nonce tx); crypto.IBig (types.GasPrice tx);
             crypto.IUint (types.Gas tx);
             crypto.IAddr (Some (common.HexToAddress toAddress));
             crypto.IBig (amount (fc m)); crypto.IBytes [];
             crypto.IBig (chainID (fc m)); crypto.IUint 0; crypto.IUint 0])
         (privateKey (fc m)) = inl sig
       /\ types.R tx = crypto.sig_r sig /\ types.S tx = crypto.sig_s sig
       /\ types.V tx = if chainID (fc m) =? 0 then crypto.sig_v sig + 27
                       else crypto.sig_v sig + 35 + chainID (fc m) * 2.
Proof.
  intros Hok.
  pose proof (SendTokens_ok_inv _ _ _ _ _ Hok)
    as (_ & _ & (sig & Hsig & Htx) & Hnonce & Hprice & Hgas & _).
  repeat (split; [first [assumption | rewrite Htx; reflexivity]|]).
  exists sig. split; [exact Hsig|]. rewrite Htx. repeat split; reflexivity.
Qed.

(** ** Letter case of the request string *)

Lemma chars_lower_str (s : string) : chars (lower_str s) = lower <$> chars s.
Proof. induction s as [|c s IH]; simpl; [reflexivity | f_equal; exact IH]. Qed.

Lemma chars_inj (s1 s2 : string) : chars s1 = chars s2 -> s1 = s2.
Proof.
  unfold chars. intros H.
  rewrite <- (string_of_list_ascii_of_string s1),
          <- (string_of_list_ascii_of_string s2).
  f_equal. exact H.
Qed.

Lemma same_modulo_case_lower (s1 s2 : string) :
  same_modulo_case s1 s2 -> lower_str s1 = lower_str s2.
Proof.
  unfold same_modulo_case. intros H. apply chars_inj.
  rewrite !chars_lower_str. exact H.
Qed.

Lemma lower_char_facts (c : ascii) :
  common.fromHexChar (lower c) = common.fromHexChar c
  /\ common.isHexCharacter (lower c) = common.isHexCharacter c
  /\ Ascii.eqb (lower c) "0" = Ascii.eqb c "0"
  /\ (Ascii.eqb (lower c) "x" || Ascii.eqb (lower c) "X")
     = (Ascii.eqb c "x" || Ascii.eqb c "X").
Proof. destruct c as [[] [] [] [] [] [] [] []]; repeat split; reflexivity. Qed.

Lemma length_lower_str (s : string) :
  String.length (lower_str s) = String.length s.
Proof. induction s; simpl; congruence. Qed.

Lemma drop_lower_str (n : nat) (s : string) :
  drop_str n (lower_str s) = lower_str (drop_str n s).
Proof.
  revert s. induction n as [|n IH]; intros [|c s]; simpl; auto.
Qed.

Lemma has0xPrefix_lower (s : string) :
  common.has0xPrefix (lower_str s) = common.has0xPrefix s.
Proof.
  destruct s as [|c0 [|c1 s]]; try reflexivity.
  cbn [lower_str common.has0xPrefix].
  destruct (lower_char_facts c0) as (_ & _ & -> & _).
  destruct (lower_char_facts c1) as (_ & _ & _ & ->). reflexivity.
Qed.

Lemma all_hex_lower (s : string) :
  all_bytes common.isHexCharacter (lower_str s)
  = all_bytes common.isHexCharacter s.
Proof.
  induction s as [|c s IH]; [reflexivity|].
  cbn [lower_str all_bytes].
  destruct (lower_char_facts c) as (_ & -> & _). rewrite IH. reflexivity.
Qed.

Lemma Hex2Bytes_lower (s : string) :
  common.Hex2Bytes (lower_str s) = common.Hex2Bytes s
  /\ forall c, common.Hex2Bytes (lower_str (String c s))
               = common.Hex2Bytes (String c s).
Proof.
  induction s as [|c' s [IH0 IH1]].
  - split; reflexivity.
  - split; [apply IH1|]. intros c.
    cbn [lower_str common.Hex2Bytes].
    destruct (lower_char_facts c) as (-> & _).
    destruct (lower_char_facts c') as (-> & _).
    rewrite IH0. reflexivity.
Qed.

Lemma IsHexAddress_lower (s : string) :
  common.IsHexAddress (lower_str s) = common.IsHexAddress s.
Proof.
  unfold common.IsHexAddress, common.isHex.
  rewrite has0xPrefix_lower.
  destruct (common.has0xPrefix s).
  - rewrite drop_lower_str, length_lower_str, all_hex_lower. reflexivity.
  - rewrite length_lower_str, all_hex_lower. reflexivity.
Qed.

Lemma HexToAddress_lower (s : string) :
  common.HexToAddress (lower_str s) = common.HexToAddress s.
Proof.
  unfold common.HexToAddress, common.FromHex. f_equal.
  rewrite has0xPrefix_lower.
  destruct (common.has0xPrefix s).
  - rewrite drop_lower_str, length_lower_str.
    destruct (Nat.odd _);
      [exact (proj2 (Hex2Bytes_lower _) "0"%char)
      | exact (proj1 (Hex2Bytes_lower _))].
  - rewrite length_lower_str.
    destruct (Nat.odd _);
      [exact (proj2 (Hex2Bytes_lower _) "0"%char)
      | exact (proj1 (Hex2Bytes_lower _))].
Qed.

(** X13. Two request strings that differ only in letter case are accepted
    or rejected alike by the address check, and the transactions
    [SendTokens] returns for them, on whatever faucet and node, go to the
    same account. *)
Theorem SendTokens_recipient_ignores_case (lib : crypto.Lib) (w1 w2 : World)
    (a1 a2 : string) (m1 m2 : Machine) (tx1 tx2 : types.Transaction) :
  same_modulo_case a1 a2 ->
  common.IsHexAddress a1 = common.IsHexAddress a2
  /\ (result_of (run (SendTokens lib w1 a1) m1) = inl tx1 ->
      result_of (run (SendTokens lib w2 a2) m2) = inl tx2 ->
      types.To tx1 = types.To tx2).
Proof.
  intros Hcase. apply same_modulo_case_lower in Hcase. split.
  - rewrite <- (IsHexAddress_lower a1), <- (IsHexAddress_lower a2), Hcase.
    reflexivity.
  - intros H1 H2.
    apply SendTokens_ok_inv in H1 as (_ & _ & (sig1 & _ & ->) & _).
    apply SendTokens_ok_inv in H2 as (_ & _ & (sig2 & _ & ->) & _).
    cbn [signed_transfer_of types.To].
    rewrite <- (HexToAddress_lower a1), <- (HexToAddress_lower a2), Hcase.
    reflexivity.
Qed.

(** ** [GetBalance] *)


(** ** The handler of [/request] *)


(** ** [main] *)




(** ** Requests served one after the other *)

(** The store after a request: the faucet with the new entry when the
    request is served, the same faucet otherwise; the count of clock
    readings never goes down. *)
Lemma SendTokens_store (lib : crypto.Lib) (w : World) (toAddress : string)
    (m : Machine) :
  (exists tx, result_of (run (SendTokens lib w toAddress) m) = inl tx
     /\ common.IsHexAddress toAddress = true
     /\ store_of (run (SendTokens lib w toAddress) m)
        = {| fc := record_used (fc m) toAddress
                     (clock w (ticks m + check_reads m toAddress));
             ticks := S (ticks m + check_reads m toAddress) |})
  \/ (exists err, result_of (run (SendTokens lib w toAddress) m) = inr err)
     /\ fc (store_of (run (SendTokens lib w toAddress) m)) = fc m
     /\ (ticks m <= ticks (store_of (run (SendTokens lib w toAddress) m)))%nat.
Proof.
  destruct (result_of (run (SendTokens lib w toAddress) m)) as [tx|err] eqn:Hres.
  - left. exists tx. split; [reflexivity|].
    apply SendTokens_ok_inv in Hres. tauto.
  - right. split; [eauto|]. revert Hres. unfold_run.
    repeat branch; intros H; try discriminate H; cbn [fc ticks]; split;
      reflexivity || lia.
Qed.

Lemma handleRequest_store (lib : crypto.Lib) (w : World)
    (bound : option Request) (m : Machine) :
  store_of (run (handleRequest lib w bound) m)
  = match bound with
    | Some req => store_of (run (SendTokens lib w (Address req)) m)
    | None => m
    end.
Proof.
  destruct bound as [req|]; [|reflexivity].
  unfold handleRequest.
  cbv [run attempt mbind mret prog_bind prog_ret result_of store_of trace_of
       fst snd].
  destruct (SendTokens lib w (Address req) m) as [[[tx|err] m'] t]; reflexivity.
Qed.

Lemma table_ok_step (lib : crypto.Lib) (w : World) (bound : option Request)
    (m : Machine) :
  table_ok (clock w) m ->
  table_ok (clock w) (store_of (run (handleRequest lib w bound) m)).
Proof.
  intros Hok. rewrite handleRequest_store.
  destruct bound as [req|]; [|exact Hok].
  destruct (SendTokens_store lib w (Address req) m)
    as [(tx & _ & Hvalid & ->) | (_ & Hfc & Hticks)].
  - intros key t. cbn [fc ticks record_used usedAddresses].
    destruct (decide (Address req = key)) as [<- | Hne].
    + rewrite lookup_insert_eq. intros H. injection H as <-.
      split; [exact Hvalid|]. eexists. split; [|reflexivity]. lia.
    + rewrite lookup_insert_ne by exact Hne. intros H.
      destruct (Hok key t H) as (Hk & i & Hi & ->).
      split; [exact Hk|]. exists i. split; [lia | reflexivity].
  - intros key t. rewrite Hfc. intros H.
    destruct (Hok key t H) as (Hk & i & Hi & ->).
    split; [exact Hk|]. exists i. split; [lia | reflexivity].
Qed.

(** X17. However many requests have been served, one after the other, since
    start-up: every key of the cooldown table is a string the address check
    accepts, and every timestamp is a reading of the clock taken before; so
    under a clock that does not run backwards no timestamp is later than
    the next reading. *)
Theorem served_table_ok (lib : crypto.Lib) (w0 : World) (ck : nat -> time.Time)
    (f : Faucet) (m : Machine) :
  result_of (run (NewFaucet lib w0) tt) = inl f ->
  served lib ck {| fc := f; ticks := 0 |} m ->
  table_ok ck m
  /\ ((forall i j : nat, (i <= j)%nat -> ck i <= ck j) ->
      forall key t, usedAddresses (fc m) !! key = Some t -> t <= ck (ticks m)).
Proof.
  intros Hnew Hserved.
  assert (table_ok ck m) as Hok.
  { remember {| fc := f; ticks := 0 |} as m0 eqn:Hm0.
    induction Hserved as [m | m m1 w bound Hs IH Hck].
    - apply NewFaucet_ok_inv in Hnew as (_ & _ & _ & _ & _ & _ & _ & Hempty & _).
      intros key t. subst m. cbn [fc]. rewrite Hempty, lookup_empty.
      discriminate.
    - subst ck. apply table_ok_step, IH, Hm0. }
  split; [exact Hok|].
  intros Hmono key t H. destruct (Hok key t H) as (_ & i & Hi & ->).
  apply Hmono. lia.
Qed.

(** X18. Serving requests never changes the configuration of the faucet,
    never removes an entry from the cooldown table, and never takes back a
    reading of the clock. *)
Theorem served_frame (lib : crypto.Lib) (ck : nat -> time.Time)
    (m m' : Machine) :
  served lib ck m m' ->
  same_config (fc m') (fc m)
  /\ (ticks m <= ticks m')%nat
  /\ forall key, is_Some (usedAddresses (fc m) !! key) ->
                 is_Some (usedAddresses (fc m') !! key).
Proof.
  induction 1 as [m | m m1 w bound Hs (Hcfg & Hticks & Hkeys) Hck].
  - unfold same_config. repeat split; auto.
  - rewrite handleRequest_store. destruct bound as [req|]; [|auto].
    destruct (SendTokens_store lib w (Address req) m1)
      as [(tx & _ & _ & ->) | (_ & Hfc & Hle)].
    + cbn [fc ticks record_used usedAddresses].
      split; [exact Hcfg|]. split; [lia|].
      intros key Hkey. apply Hkeys in Hkey.
      destruct (decide (Address req = key)) as [<- | Hne].
      * rewrite lookup_insert_eq. eauto.
      * rewrite lookup_insert_ne by exact Hne. exact Hkey.
    + rewrite Hfc. split; [exact Hcfg|]. split; [lia | exact Hkeys].
Qed.

(** ** The properties on the test network *)

Lemma NewFaucet_dial_failure_witness :
  Dial Cases.offline (getenv_or Cases.offline "RPC_URL" "http://localhost:8545")
  = inr "connection refused"%string
  /\ run (NewFaucet Demo.lib Cases.offline) tt
     = (inr "failed to connect to Ethereum network: connection refused"%string,
        tt, []).
Proof.
  split; [reflexivity|].
  exact (NewFaucet_dial_failure Demo.lib Cases.offline _ eq_refl).
Defined.

Lemma NewFaucet_missing_key_witness :
  Getenv (setenv Demo.world "PRIVATE_KEY" "") "PRIVATE_KEY" = ""%string
  /\ run (NewFaucet Demo.lib (setenv Demo.world "PRIVATE_KEY" "")) tt
     = (inr "PRIVATE_KEY environment variable is required"%string, tt, []).
Proof.
  split; [reflexivity|].
  exact (NewFaucet_missing_key Demo.lib (setenv Demo.world "PRIVATE_KEY" "")
           {| ethclient.rawurl := "http://localhost:8545" |} eq_refl eq_refl).
Defined.

Lemma NewFaucet_defaults_witness :
  let w := setenv Demo.world "COOLDOWN_HOURS" "" in
  let f := with_cooldown Demo.faucet (24 * time.Hour) in
  result_of (run (NewFaucet Demo.lib w) tt) = inl f
  /\ Dial w "http://localhost:8545" = inl (client f)
  /\ amount f = 1000000000000000000
  /\ cooldown f = 24 * time.Hour.
Proof.
  intros w f. split; [reflexivity|].
  exact (NewFaucet_defaults Demo.lib w f eq_refl eq_refl eq_refl eq_refl).
Defined.


Lemma SendTokens_error_no_effect_witness :
  result_of (run (SendTokens Demo.lib Demo.broke Demo.alice) Demo.fresh)
  = inr "failed to send transaction: insufficient funds"%string
  /\ fc (store_of (run (SendTokens Demo.lib Demo.broke Demo.alice) Demo.fresh))
     = fc Demo.fresh
  /\ Forall (fun ev => is_table_write ev = false
                       /\ forall c ctx tx, ev = CallSendTransaction c ctx tx ->
                                           SendTransaction Demo.broke c ctx tx <> None)
       (trace_of (run (SendTokens Demo.lib Demo.broke Demo.alice) Demo.fresh)).
Proof.
  split; [reflexivity|].
  exact (SendTokens_error_no_effect Demo.lib Demo.broke Demo.alice Demo.fresh
           _ eq_refl).
Defined.

Lemma SendTokens_success_iff_accepted_witness :
  let tx := signed_transfer_of Demo.faucet Demo.alice 7 1000000000 21000
              {| crypto.sig_r := 1; crypto.sig_s := 2; crypto.sig_v := 0 |} in
  result_of (run (SendTokens Demo.lib Demo.world Demo.alice) Demo.fresh) = inl tx
  /\ exists calls,
       trace_of (run (SendTokens Demo.lib Demo.world Demo.alice) Demo.fresh)
       = calls
         ++ [CallSendTransaction (client (fc Demo.fresh)) context.Background tx;
             TableWrite Demo.alice
               (clock Demo.world (ticks Demo.fresh + check_reads Demo.fresh Demo.alice))]
       /\ Forall (fun ev => is_table_write ev = false) calls
       /\ usedAddresses
            (fc (store_of (run (SendTokens Demo.lib Demo.world Demo.alice) Demo.fresh)))
          = <[Demo.alice := clock Demo.world
                              (ticks Demo.fresh + check_reads Demo.fresh Demo.alice)]>
              (usedAddresses (fc Demo.fresh)).
Proof.
  intros tx.
  destruct (SendTokens_success_iff_accepted Demo.lib Demo.world Demo.alice
              Demo.fresh tx) as [[_ Hback] Hshape].
  assert (result_of (run (SendTokens Demo.lib Demo.world Demo.alice) Demo.fresh)
          = inl tx) as Hok.
  { apply Hback. split; [|reflexivity].
    apply list_elem_of_In. vm_compute. tauto. }
  split; [exact Hok | exact (Hshape Hok)].
Defined.

Lemma SendTokens_signing_failure_witness :
  let f := fc Demo.fresh in
  common.IsHexAddress Demo.alice = true
  /\ eligible Demo.world Demo.fresh Demo.alice
  /\ result_of (run (SendTokens Cases.mute Demo.world Demo.alice) Demo.fresh)
     = inr "failed to sign transaction: invalid private key"%string
  /\ fc (store_of (run (SendTokens Cases.mute Demo.world Demo.alice) Demo.fresh)) = f
  /\ trace_of (run (SendTokens Cases.mute Demo.world Demo.alice) Demo.fresh)
     = [TableRead Demo.alice;
        CallPendingNonceAt (client f) context.Background (fromAddress f);
        CallSuggestGasPrice (client f) context.Background;
        CallEstimateGas (client f) context.Background
          {| ethclient.From := fromAddress f;
             ethclient.To := Some (common.HexToAddress Demo.alice);
             ethclient.Gas := 0; ethclient.GasPrice := None;
             ethclient.Value := Some (amount f); ethclient.Data := [] |}].
Proof.
  intros f. split; [reflexivity|]. split; [exact I|].
  exact (SendTokens_signing_failure Cases.mute Demo.world Demo.alice Demo.fresh
           7 1000000000 21000 "invalid private key"
           eq_refl I eq_refl eq_refl eq_refl eq_refl).
Defined.

Lemma SendTokens_first_request_witness :
  common.IsHexAddress Demo.bob = true
  /\ usedAddresses (fc Demo.served) !! Demo.bob = None
  /\ exists tx : types.Transaction,
       result_of (run (SendTokens Demo.lib Demo.world Demo.bob) Demo.served) = inl tx
       /\ store_of (run (SendTokens Demo.lib Demo.world Demo.bob) Demo.served)
          = {| fc := record_used (fc Demo.served) Demo.bob
                       (clock Demo.world (ticks Demo.served));
               ticks := S (ticks Demo.served) |}.
Proof.
  assert (usedAddresses (fc Demo.served) !! Demo.bob = None) as Hnone
    by (vm_compute; reflexivity).
  split; [reflexivity|]. split; [exact Hnone|].
  apply (SendTokens_first_request Demo.lib Demo.world Demo.bob Demo.served
           eq_refl Hnone).
  - vm_compute. repeat constructor.
  - intros h. eexists. reflexivity.
Defined.

Lemma SendTokens_repeat_refused_witness :
  let tx := signed_transfer_of Demo.faucet Demo.alice 7 1000000000 21000
              {| crypto.sig_r := 1; crypto.sig_s := 2; crypto.sig_v := 0 |} in
  result_of (run (SendTokens Demo.lib Demo.world Demo.alice) Demo.fresh) = inl tx
  /\ time.Sub (clock Demo.broke (ticks Demo.served)) 0 < cooldown (fc Demo.fresh)
  /\ usedAddresses (fc Demo.served) !! Demo.alice = Some 0
  /\ result_of (run (SendTokens Demo.lib Demo.broke Demo.alice) Demo.served)
     = inr ("address " +:+ Demo.alice +:+ " can request again in 20m0s")
  /\ trace_of (run (SendTokens Demo.lib Demo.broke Demo.alice) Demo.served)
     = [TableRead Demo.alice].
Proof.
  intros tx.
  assert (result_of (run (SendTokens Demo.lib Demo.world Demo.alice) Demo.fresh)
          = inl tx) as Hok by reflexivity.
  assert (time.Sub (clock Demo.broke (ticks Demo.served)) 0 < cooldown (fc Demo.fresh))
    as Hlt by (vm_compute; reflexivity).
  destruct (SendTokens_repeat_refused Demo.lib Demo.world Demo.broke Demo.alice
              Demo.fresh tx Hok Hlt) as [Hused Hrun].
  split; [exact Hok|]. split; [exact Hlt|]. split; [exact Hused|].
  change (store_of (run (SendTokens Demo.lib Demo.world Demo.alice) Demo.fresh))
    with Demo.served in Hrun.
  rewrite Hrun. split; vm_compute; reflexivity.
Defined.


Lemma SendTokens_returned_transaction_witness :
  exists tx,
    result_of (run (SendTokens Demo.lib Demo.world Demo.alice) Demo.fresh) = inl tx
    /\ types.To tx = Some (common.HexToAddress Demo.alice)
    /\ types.Value tx = amount (fc Demo.fresh)
    /\ types.Data tx = [].
Proof.
  eexists. split; [vm_compute; reflexivity|].
  destruct (SendTokens_returned_transaction Demo.lib Demo.world Demo.alice
              Demo.fresh _ eq_refl) as (H1 & H2 & H3 & _).
  split; [exact H1|]. split; [exact H2 | exact H3].
Defined.

Lemma SendTokens_recipient_ignores_case_witness :
  same_modulo_case Demo.alice Demo.ALICE
  /\ common.IsHexAddress Demo.alice = common.IsHexAddress Demo.ALICE
  /\ exists tx1 tx2,
       result_of (run (SendTokens Demo.lib Demo.world Demo.alice) Demo.fresh) = inl tx1
       /\ result_of (run (SendTokens Demo.lib Demo.world Demo.ALICE) Demo.served) = inl tx2
       /\ types.To tx1 = types.To tx2.
Proof.
  assert (same_modulo_case Demo.alice Demo.ALICE) as Hcase by reflexivity.
  split; [exact Hcase|].
  pose (tx1 := signed_transfer_of Demo.faucet Demo.alice 7 1000000000 21000
                 {| crypto.sig_r := 1; crypto.sig_s := 2; crypto.sig_v := 0 |}).
  pose (tx2 := signed_transfer_of Demo.faucet Demo.ALICE 7 1000000000 21000
                 {| crypto.sig_r := 1; crypto.sig_s := 2; crypto.sig_v := 0 |}).
  destruct (SendTokens_recipient_ignores_case Demo.lib Demo.world Demo.world
              Demo.alice Demo.ALICE Demo.fresh Demo.served tx1 tx2 Hcase)
    as [Hvalid Hto].
  split; [exact Hvalid|].
  assert (result_of (run (SendTokens Demo.lib Demo.world Demo.alice) Demo.fresh)
          = inl tx1) as H1 by reflexivity.
  assert (result_of (run (SendTokens Demo.lib Demo.world Demo.ALICE) Demo.served)
          = inl tx2) as H2 by (vm_compute; reflexivity).
  exists tx1, tx2. split; [exact H1|]. split; [exact H2 | exact (Hto H1 H2)].
Defined.



Lemma served_demo :
  served Demo.lib (clock Demo.world) Demo.fresh Demo.served.
Proof.
  change Demo.served
    with (store_of (run (handleRequest Demo.lib Demo.world (Cases.ask Demo.alice))
                      Demo.fresh)).
  apply served_next; [apply served_none | reflexivity].
Qed.

Lemma served_table_ok_witness :
  result_of (run (NewFaucet Demo.lib Demo.world) tt) = inl Demo.faucet
  /\ served Demo.lib (clock Demo.world) Demo.fresh Demo.served
  /\ table_ok (clock Demo.world) Demo.served
  /\ forall key t, usedAddresses (fc Demo.served) !! key = Some t ->
                   t <= clock Demo.world (ticks Demo.served).
Proof.
  destruct (served_table_ok Demo.lib Demo.world (clock Demo.world) Demo.faucet
              Demo.served eq_refl served_demo) as [Hok Hpast].
  split; [reflexivity|]. split; [exact served_demo|]. split; [exact Hok|].
  apply Hpast. intros i j Hij. cbn [clock Demo.world].
  apply Z.mul_le_mono_nonneg_r; [vm_compute; discriminate | lia].
Defined.

Lemma served_frame_witness :
  served Demo.lib (clock Demo.world) Demo.fresh Demo.served
  /\ same_config (fc Demo.served) (fc Demo.fresh)
  /\ (ticks Demo.fresh <= ticks Demo.served)%nat
  /\ forall key, is_Some (usedAddresses (fc Demo.fresh) !! key) ->
                 is_Some (usedAddresses (fc Demo.served) !! key).
Proof.
  split; [exact served_demo|].
  exact (served_frame Demo.lib (clock Demo.world) Demo.fresh Demo.served
           served_demo).
Defined.
